(** * VS Code custom agent (.agent.md) validator

    A shallow embedding of the validation engine of
    [vscode-agent-validation] (the validator source and [src/types.ts]),
    and the properties of its specification checked against it.

    JavaScript strings are sequences of UTF-16 code units; they are kept
    here as lists of code units, so that [length], [trim], [split] and the
    two regular expressions of the validator act on the same units as in
    the program. *)

From Stdlib Require Import List NArith Arith Bool Lia Ascii String.
From Stdlib Require Import DecimalString DecimalPos.
Import ListNotations.

Set Implicit Arguments.
Set Warnings "-register-all".

(* ------------------------------------------------------------------ *)
(** * Strings *)
(* ------------------------------------------------------------------ *)

Module JsString.

Definition jsstring := list N.

(** An ASCII literal of the source, as code units. *)
Definition lit (s : string) : jsstring :=
  map N_of_ascii (list_ascii_of_string s).

Fixpoint eqb (a b : jsstring) : bool :=
  match a, b with
  | [], [] => true
  | x :: a', y :: b' => N.eqb x y && eqb a' b'
  | _, _ => false
  end.

(** [String(n)] for a non-negative integer below 2^53. *)
Definition of_N (n : N) : jsstring :=
  lit (NilEmpty.string_of_uint (N.to_uint n)).

Definition of_nat (n : nat) : jsstring := of_N (N.of_nat n).

(** [s.startsWith(p)]. *)
Fixpoint startsWith (p s : jsstring) : bool :=
  match p, s with
  | [], _ => true
  | x :: p', y :: s' => N.eqb x y && startsWith p' s'
  | _ :: _, [] => false
  end.

(** [s.endsWith(p)]. *)
Definition endsWith (p s : jsstring) : bool :=
  startsWith (rev p) (rev s).

(** [arr.includes(x)] on an array of strings. *)
Definition includes (x : jsstring) (arr : list jsstring) : bool :=
  existsb (eqb x) arr.

(** [arr.join(sep)]. *)
Fixpoint join (sep : jsstring) (arr : list jsstring) : jsstring :=
  match arr with
  | [] => []
  | [x] => x
  | x :: rest => x ++ sep ++ join sep rest
  end.

(** White space and line terminators, the code units [trim] strips. *)
Definition is_space (c : N) : bool :=
  (N.leb 9 c && N.leb c 13)
  || N.eqb c 32 || N.eqb c 160 || N.eqb c 5760
  || (N.leb 8192 c && N.leb c 8202)
  || N.eqb c 8232 || N.eqb c 8233 || N.eqb c 8239 || N.eqb c 8287
  || N.eqb c 12288 || N.eqb c 65279.

Fixpoint trimStart (s : jsstring) : jsstring :=
  match s with
  | c :: s' => if is_space c then trimStart s' else s
  | [] => []
  end.

Definition trimEnd (s : jsstring) : jsstring := rev (trimStart (rev s)).

Definition trim (s : jsstring) : jsstring := trimEnd (trimStart s).

(** [s.split("\n")]: the pieces between line feeds, at least one. *)
Fixpoint split_lf (s : jsstring) : list jsstring :=
  match s with
  | [] => [[]]
  | c :: s' =>
      if N.eqb c 10 then [] :: split_lf s'
      else match split_lf s' with
           | piece :: rest => (c :: piece) :: rest
           | [] => [[c]]
           end
  end.

(** If [s] begins with [pat], what follows it. *)
Fixpoint strip_prefix (pat s : jsstring) : option jsstring :=
  match pat, s with
  | [], _ => Some s
  | x :: pat', y :: s' => if N.eqb x y then strip_prefix pat' s' else None
  | _ :: _, [] => None
  end.

(** The first occurrence of [pat] in [s]: the text before and after it. *)
Fixpoint find_first (pat s : jsstring) : option (jsstring * jsstring) :=
  match strip_prefix pat s with
  | Some rest => Some ([], rest)
  | None =>
      match s with
      | [] => None
      | c :: s' =>
          match find_first pat s' with
          | Some (before, after) => Some (c :: before, after)
          | None => None
          end
      end
  end.

(** The replacement text of [String.prototype.replace] when the pattern is
    a string: [$$], [$&], [$`] and [$'] are expanded, and since a string
    pattern has no capture groups every other [$] stays as written. *)
Fixpoint getSubstitution (matched before after repl : jsstring) : jsstring :=
  match repl with
  | [] => []
  | c :: r =>
      if N.eqb c 36 then
        match r with
        | d :: r' =>
            if N.eqb d 36 then 36%N :: getSubstitution matched before after r'
            else if N.eqb d 38 then matched ++ getSubstitution matched before after r'
            else if N.eqb d 96 then before ++ getSubstitution matched before after r'
            else if N.eqb d 39 then after ++ getSubstitution matched before after r'
            else c :: getSubstitution matched before after r
        | [] => [c]
        end
      else c :: getSubstitution matched before after r
  end.

(** [s.replace(pat, repl)] with a string pattern: the first occurrence
    only. *)
Definition replace (pat repl s : jsstring) : jsstring :=
  match find_first pat s with
  | Some (before, after) =>
      before ++ getSubstitution pat before after repl ++ after
  | None => s
  end.

End JsString.

Import JsString.

(* ------------------------------------------------------------------ *)
(** * Types ([src/types.ts]) *)
(* ------------------------------------------------------------------ *)

Inductive RuleSeverity := SevError | SevWarning.

Inductive RuleId :=
| FrontmatterRequired | FrontmatterValid | FileExtension
| DescriptionFormat | DescriptionQuality | NameFormat | ArgumentHintFormat
| ToolsFormat | AgentsFormat | ModelFormat
| UserInvokableFormat | DisableModelInvocationFormat | InferDeprecated
| TargetValid | McpServersFormat | HandoffsFormat
| HandoffLabelRequired | HandoffAgentRequired | HandoffSendFormat
| HandoffModelFormat | UnknownField | BodyEmpty | BodyTooLong
| ReferenceNotFound.

(** The string each [RuleId] is in the program. *)
Definition ruleName (r : RuleId) : jsstring :=
  lit match r with
      | FrontmatterRequired => "frontmatter-required"
      | FrontmatterValid => "frontmatter-valid"
      | FileExtension => "file-extension"
      | DescriptionFormat => "description-format"
      | DescriptionQuality => "description-quality"
      | NameFormat => "name-format"
      | ArgumentHintFormat => "argument-hint-format"
      | ToolsFormat => "tools-format"
      | AgentsFormat => "agents-format"
      | ModelFormat => "model-format"
      | UserInvokableFormat => "user-invokable-format"
      | DisableModelInvocationFormat => "disable-model-invocation-format"
      | InferDeprecated => "infer-deprecated"
      | TargetValid => "target-valid"
      | McpServersFormat => "mcp-servers-format"
      | HandoffsFormat => "handoffs-format"
      | HandoffLabelRequired => "handoff-label-required"
      | HandoffAgentRequired => "handoff-agent-required"
      | HandoffSendFormat => "handoff-send-format"
      | HandoffModelFormat => "handoff-model-format"
      | UnknownField => "unknown-field"
      | BodyEmpty => "body-empty"
      | BodyTooLong => "body-too-long"
      | ReferenceNotFound => "reference-not-found"
      end%string.

Record RuleDefinition := {
  rule_severity : RuleSeverity;
  rule_message : jsstring
}.

Record ValidationIssue := {
  ruleId : RuleId;
  message : jsstring;
  severity : RuleSeverity;
  file : option jsstring;
  line : option N
}.

Record FileValidationResult := {
  result_file : jsstring;
  valid : bool;
  errors : list ValidationIssue;
  warnings : list ValidationIssue
}.

Record ParseError := {
  error_message : jsstring;
  error_ruleId : option RuleId
}.

Record ValidateOptions := {
  ignoreRules : list jsstring;
  validateReferences : bool;
  filePath : jsstring
}.

Definition KNOWN_FIELDS : list jsstring :=
  map lit [ "description"; "name"; "argument-hint"; "tools"; "agents";
            "model"; "user-invokable"; "disable-model-invocation"; "infer";
            "target"; "mcp-servers"; "handoffs" ]%string.

Definition VALID_TARGETS : list jsstring :=
  map lit [ "vscode"; "github-copilot" ]%string.

(* ------------------------------------------------------------------ *)
(** * Decoded YAML documents *)
(* ------------------------------------------------------------------ *)

(** What [load] of js-yaml builds.  A number is kept as the text
    [String] gives for it, which is all the validator ever asks of a
    number besides its type; an object is the list of its own properties
    in the order [Object.keys] enumerates them; a timestamp is a [Date],
    kept as its text.  [undefined] is not a [value]: the decoder never
    stores it inside a document, so a value of TypeScript type [unknown]
    is an [option value], [None] being [undefined]. *)
Inductive value :=
| JNull
| JBool (b : bool)
| JNum (repr : jsstring)
| JStr (s : jsstring)
| JArr (items : list value)
| JObj (props : list (jsstring * value))
| JDate (repr : jsstring).

Definition unknown := option value.

Inductive jstype := TUndefined | TObject | TBoolean | TNumber | TString.

Definition typeof (v : unknown) : jstype :=
  match v with
  | None => TUndefined
  | Some JNull => TObject
  | Some (JBool _) => TBoolean
  | Some (JNum _) => TNumber
  | Some (JStr _) => TString
  | Some (JArr _) => TObject
  | Some (JObj _) => TObject
  | Some (JDate _) => TObject
  end.

Definition is_string (v : unknown) : bool :=
  match typeof v with TString => true | _ => false end.

Definition is_boolean (v : unknown) : bool :=
  match typeof v with TBoolean => true | _ => false end.

Definition is_object_type (v : unknown) : bool :=
  match typeof v with TObject => true | _ => false end.

(** [v === undefined || v === null]. *)
Definition is_nullish (v : unknown) : bool :=
  match v with
  | None | Some JNull => true
  | _ => false
  end.

Definition isArray (v : unknown) : bool :=
  match v with
  | Some (JArr _) => true
  | _ => false
  end.

(** [!v] is [negb (truthy v)]. *)
Definition truthy (v : unknown) : bool :=
  match v with
  | None | Some JNull => false
  | Some (JBool b) => b
  | Some (JNum r) => negb (JsString.eqb r (lit "0") || JsString.eqb r (lit "NaN"))
  | Some (JStr s) => match s with [] => false | _ => true end
  | Some (JArr _) | Some (JObj _) | Some (JDate _) => true
  end.

(** [String(v)]. *)
Fixpoint toString (v : value) : jsstring :=
  match v with
  | JNull => lit "null"
  | JBool true => lit "true"
  | JBool false => lit "false"
  | JNum r => r
  | JStr s => s
  | JArr items =>
      join (lit ",")
           (map (fun x => match x with JNull => [] | _ => toString x end) items)
  | JObj _ => lit "[object Object]"
  | JDate r => r
  end.

Definition String_ (v : unknown) : jsstring :=
  match v with
  | None => lit "undefined"
  | Some x => toString x
  end.

Fixpoint assoc (k : jsstring) (props : list (jsstring * value)) : unknown :=
  match props with
  | [] => None
  | (k', v) :: rest => if JsString.eqb k k' then Some v else assoc k rest
  end.

(** [o.k] and [o["k"]] for the property names the validator reads
    ([description], [name], ..., [label], [agent], [send]): none of them is
    an index, [length] or a member of a prototype, so only an object's own
    properties answer. *)
Definition get (o : value) (k : string) : unknown :=
  match o with
  | JObj props => assoc (lit k) props
  | _ => None
  end.

(** [Object.keys(o)] for a decoded document. *)
Definition Object_keys (o : value) : list jsstring :=
  match o with
  | JObj props => map fst props
  | JArr items => map of_nat (seq 0 (List.length items))
  | _ => []
  end.

(* ------------------------------------------------------------------ *)
(** * The issue collector *)
(* ------------------------------------------------------------------ *)

(** The two arrays [errors] and [warnings] every validator appends to. *)
Definition Issues := (list ValidationIssue * list ValidationIssue)%type.

Definition DESCRIPTION_MIN_QUALITY : nat := 50.
Definition BODY_MAX_LINES : nat := 1000.
Definition MAX_FILE_SIZE_KB : N := 512.

Section Engine.

(** [rules.json], the rule table, is read by the validator but is data of
    its own: every rule identifier has a severity and a message
    template. *)
Variable rules : RuleId -> RuleDefinition.

Definition render (template detail : jsstring) : jsstring :=
  replace (lit "{knownFields}") (join (lit ", ") KNOWN_FIELDS)
  (replace (lit "{index}") detail
  (replace (lit "{path}") detail
  (replace (lit "{field}") detail
  (replace (lit "{value}") detail
  (replace (lit "{lines}") detail
  (replace (lit "{length}") detail
  (replace (lit "{detail}") detail template))))))).

Definition createIssue (id : RuleId) (detail : option jsstring)
    (f : option jsstring) (l : option N) : ValidationIssue :=
  let rule := rules id in
  let msg :=
    match detail with
    | Some ((_ :: _) as d) => render (rule_message rule) d
    | _ => rule_message rule
    end in
  {| ruleId := id; message := msg; severity := rule_severity rule;
     file := f; line := l |}.

(** [errors.push(issue)] or [warnings.push(issue)], by severity. *)
Definition push (issue : ValidationIssue) (st : Issues) : Issues :=
  match severity issue with
  | SevError => (fst st ++ [issue], snd st)
  | SevWarning => (fst st, snd st ++ [issue])
  end.

Definition addIssue (id : RuleId) (detail : option jsstring)
    (ignore : list jsstring) (f : option jsstring) (l : option N)
    (st : Issues) : Issues :=
  if includes (ruleName id) ignore then st
  else push (createIssue id detail f l) st.

(* ------------------------------------------------------------------ *)
(** * Field validators *)
(* ------------------------------------------------------------------ *)

Definition validateDescription (description : unknown)
    (ignore : list jsstring) (f : jsstring) (st : Issues) : Issues :=
  match description with
  | None | Some JNull =>
      addIssue DescriptionFormat None ignore (Some f) None st
  | Some (JStr s) =>
      if Nat.eqb (List.length (trim s)) 0 then
        addIssue DescriptionFormat None ignore (Some f) None st
      else if Nat.ltb (List.length s) DESCRIPTION_MIN_QUALITY then
        addIssue DescriptionQuality (Some (of_nat (List.length s)))
                 ignore (Some f) None st
      else st
  | Some _ =>
      addIssue DescriptionFormat (Some (lit "must be a string"))
               ignore (Some f) None st
  end.

Definition validateName (name : unknown)
    (ignore : list jsstring) (f : jsstring) (st : Issues) : Issues :=
  if is_nullish name then st
  else if negb (is_string name) then
    addIssue NameFormat None ignore (Some f) None st
  else st.

Definition validateArgumentHint (hint : unknown)
    (ignore : list jsstring) (f : jsstring) (st : Issues) : Issues :=
  if is_nullish hint then st
  else if negb (is_string hint) then
    addIssue ArgumentHintFormat None ignore (Some f) None st
  else st.

(** The loop [for (i = ...; i < a.length; i++) if (typeof a[i] !== "string")
    addIssue(id, `Item at index ${i} is not a string`, ...)], which the
    tools, agents and model validators each contain, from index [i] on. *)
Fixpoint validateItems (id : RuleId) (items : list value) (i : nat)
    (ignore : list jsstring) (f : jsstring) (st : Issues) : Issues :=
  match items with
  | [] => st
  | x :: rest =>
      validateItems id rest (S i) ignore f
        (if negb (is_string (Some x)) then
           addIssue id
             (Some (lit "Item at index " ++ of_nat i ++ lit " is not a string"))
             ignore (Some f) None st
         else st)
  end.

Definition validateTools (tools : unknown)
    (ignore : list jsstring) (f : jsstring) (st : Issues) : Issues :=
  match tools with
  | None | Some JNull => st
  | Some (JArr items) => validateItems ToolsFormat items 0 ignore f st
  | Some _ =>
      addIssue ToolsFormat (Some (lit "Expected an array")) ignore (Some f) None st
  end.

Definition validateAgents (agents : unknown)
    (ignore : list jsstring) (f : jsstring) (st : Issues) : Issues :=
  match agents with
  | None | Some JNull => st
  | Some (JArr items) => validateItems AgentsFormat items 0 ignore f st
  | Some (JStr s) =>
      if JsString.eqb s (lit "*") then st
      else addIssue AgentsFormat (Some (lit "Expected an array or '*'"))
                    ignore (Some f) None st
  | Some _ =>
      addIssue AgentsFormat (Some (lit "Expected an array or '*'"))
               ignore (Some f) None st
  end.

Definition validateModel (model : unknown)
    (ignore : list jsstring) (f : jsstring) (st : Issues) : Issues :=
  match model with
  | None | Some JNull => st
  | Some (JStr _) => st
  | Some (JArr items) => validateItems ModelFormat items 0 ignore f st
  | Some _ =>
      addIssue ModelFormat (Some (lit "Expected a string or array of strings"))
               ignore (Some f) None st
  end.

Definition validateBooleanField (v : unknown) (id : RuleId)
    (ignore : list jsstring) (f : jsstring) (st : Issues) : Issues :=
  if is_nullish v then st
  else if negb (is_boolean v) then addIssue id None ignore (Some f) None st
  else st.

Definition validateTarget (target : unknown)
    (ignore : list jsstring) (f : jsstring) (st : Issues) : Issues :=
  if is_nullish target then st
  else if match target with
          | Some (JStr s) => negb (includes s VALID_TARGETS)
          | _ => true
          end then
    addIssue TargetValid (Some (String_ target)) ignore (Some f) None st
  else st.

Definition validateMcpServers (mcpServers : unknown)
    (ignore : list jsstring) (f : jsstring) (st : Issues) : Issues :=
  if is_nullish mcpServers then st
  else if negb (isArray mcpServers) then
    addIssue McpServersFormat None ignore (Some f) None st
  else st.

(** [typeof v === "object" && v !== null], the test of [isAgentFrontmatter]
    and of the guard of [validateHandoff], with the value it narrows
    to. *)
Definition non_null_object (v : unknown) : option value :=
  match v with
  | Some JNull => None
  | Some x => if is_object_type v then Some x else None
  | None => None
  end.

Definition validateHandoff (handoff : unknown) (index : nat)
    (ignore : list jsstring) (f : jsstring) (st : Issues) : Issues :=
  match non_null_object handoff with
  | None =>
      addIssue HandoffsFormat
        (Some (lit "Item at index " ++ of_nat index ++ lit " is not an object"))
        ignore (Some f) None st
  | Some h =>
      let st1 :=
        if negb (truthy (get h "label")) || negb (is_string (get h "label"))
        then addIssue HandoffLabelRequired (Some (of_nat index))
                      ignore (Some f) None st
        else st in
      let st2 :=
        if negb (truthy (get h "agent")) || negb (is_string (get h "agent"))
        then addIssue HandoffAgentRequired (Some (of_nat index))
                      ignore (Some f) None st1
        else st1 in
      let st3 :=
        match get h "send" with
        | None => st2
        | Some _ as send =>
            if negb (is_boolean send)
            then addIssue HandoffSendFormat (Some (of_nat index))
                          ignore (Some f) None st2
            else st2
        end in
      match get h "model" with
      | None => st3
      | Some _ as model =>
          if negb (is_string model)
          then addIssue HandoffModelFormat (Some (of_nat index))
                        ignore (Some f) None st3
          else st3
      end
  end.

(** The loop of [validateHandoffs], from index [i] on. *)
Fixpoint validateHandoffItems (items : list value) (i : nat)
    (ignore : list jsstring) (f : jsstring) (st : Issues) : Issues :=
  match items with
  | [] => st
  | x :: rest =>
      validateHandoffItems rest (S i) ignore f
        (validateHandoff (Some x) i ignore f st)
  end.

Definition validateHandoffs (handoffs : unknown)
    (ignore : list jsstring) (f : jsstring) (st : Issues) : Issues :=
  match handoffs with
  | None | Some JNull => st
  | Some (JArr items) => validateHandoffItems items 0 ignore f st
  | Some _ => addIssue HandoffsFormat None ignore (Some f) None st
  end.

Definition validateInfer (infer : unknown)
    (ignore : list jsstring) (f : jsstring) (st : Issues) : Issues :=
  match infer with
  | Some _ => addIssue InferDeprecated None ignore (Some f) None st
  | None => st
  end.

Definition validateUnknownFields (data : value)
    (ignore : list jsstring) (f : jsstring) (st : Issues) : Issues :=
  fold_left
    (fun acc key =>
       if negb (includes key KNOWN_FIELDS)
       then addIssue UnknownField (Some key) ignore (Some f) None acc
       else acc)
    (Object_keys data) st.

(* ------------------------------------------------------------------ *)
(** * Body validator *)
(* ------------------------------------------------------------------ *)

Definition validateBody (body : jsstring)
    (ignore : list jsstring) (f : jsstring) (st : Issues) : Issues :=
  if match body with [] => true | _ => false end
     || Nat.eqb (List.length (trim body)) 0
  then addIssue BodyEmpty None ignore (Some f) None st
  else
    let lines := List.length (split_lf body) in
    if Nat.ltb BODY_MAX_LINES lines
    then addIssue BodyTooLong (Some (of_nat lines)) ignore (Some f) None st
    else st.

(* ------------------------------------------------------------------ *)
(** * The world outside: files, the console, the YAML decoder *)
(* ------------------------------------------------------------------ *)

(** What the validator asks of [node:fs] and what it leaves on the
    console ([info] of the Actions toolkit).  [statSync] and
    [readFileSync] either throw (left, the error's message) or answer
    (right: the size in bytes, at most 2^53; the decoded text). *)
Record World := {
  statSync : jsstring -> jsstring + N;
  readFileSync : jsstring -> jsstring + jsstring;
  existsSync : jsstring -> bool;
  console : list jsstring
}.

Definition info (msg : jsstring) (w : World) : World :=
  {| statSync := statSync w; readFileSync := readFileSync w;
     existsSync := existsSync w; console := console w ++ [msg] |}.

(** [load] of js-yaml throws (an error with this message) or returns a
    document, which is [undefined] for an empty header. *)
Inductive LoadResult :=
| LoadThrows (msg : jsstring)
| LoadReturns (doc : unknown).

Variable load : jsstring -> LoadResult.

(** [path.resolve], [path.dirname] and [path.basename] of [node:path]. *)
Variable path_resolve : jsstring -> jsstring -> jsstring.
Variable path_dirname : jsstring -> jsstring.
Variable path_basename : jsstring -> jsstring.

(* ------------------------------------------------------------------ *)
(** * Reference validator *)
(* ------------------------------------------------------------------ *)

(** The text up to the first [stop], and what follows that [stop]. *)
Fixpoint until (stop : N) (s : jsstring) : option (jsstring * jsstring) :=
  match s with
  | [] => None
  | c :: r =>
      if N.eqb c stop then Some ([], r)
      else match until stop r with
           | Some (a, b) => Some (c :: a, b)
           | None => None
           end
  end.

(** A match of [linkRegex] that begins at the head of [s]: an opening
    square bracket, any code units but a closing square bracket, a closing
    square bracket, an opening parenthesis, one or more code units but a
    closing parenthesis (the second group), a closing parenthesis.  The
    result is the second group and the text after the match.  Each class
    runs to the first bracket it excludes, so there is nothing to
    backtrack into. *)
Definition link_at (s : jsstring) : option (jsstring * jsstring) :=
  match s with
  | c :: r =>
      if N.eqb c 91 then
        match until 93 r with
        | Some (_, d :: r2) =>
            if N.eqb d 40 then
              match until 41 r2 with
              | Some (x :: p, r3) => Some (x :: p, r3)
              | _ => None
              end
            else None
        | _ => None
        end
      else None
  | [] => None
  end.

(** The second groups of the successive [linkRegex.exec(body)], in order.
    [skip] is how many code units remain before [lastIndex], the end of
    the previous match, where the next search starts. *)
Fixpoint links (skip : nat) (s : jsstring) : list jsstring :=
  match s with
  | [] => []
  | _ :: s' =>
      match skip with
      | S k => links k s'
      | O =>
          match link_at s with
          | Some (p, rest) => p :: links (List.length s' - List.length rest) s'
          | None => links 0 s'
          end
      end
  end.

Definition validateFileReferences (w : World) (body agentDir : jsstring)
    (ignore : list jsstring) (f : jsstring) (st : Issues) : Issues :=
  fold_left
    (fun acc linkPath =>
       if startsWith (lit "http://") linkPath
          || startsWith (lit "https://") linkPath
          || startsWith (lit "#") linkPath
       then acc
       else if negb (existsSync w (path_resolve agentDir linkPath))
       then addIssue ReferenceNotFound (Some linkPath) ignore (Some f) None acc
       else acc)
    (links 0 body) st.

(* ------------------------------------------------------------------ *)
(** * Frontmatter splitter and document parser *)
(* ------------------------------------------------------------------ *)

(** [\r?\n] at the head of [s]. *)
Definition eol (s : jsstring) : option jsstring :=
  match s with
  | c :: r =>
      if N.eqb c 13 then
        match r with
        | d :: r' => if N.eqb d 10 then Some r' else None
        | [] => None
        end
      else if N.eqb c 10 then Some r
      else None
  | [] => None
  end.

(** An optional [c] at the head of [s], taken when it is there. *)
Definition optional (c : N) (s : jsstring) : jsstring :=
  match s with
  | x :: r => if N.eqb x c then r else s
  | [] => s
  end.

(** The lazy first group and the closing delimiter: the shortest header
    after which a line break and three dashes come, and the text after
    the three dashes. *)
Fixpoint closing (s : jsstring) : option (jsstring * jsstring) :=
  match match eol s with
        | Some r => strip_prefix (lit "---") r
        | None => None
        end with
  | Some rest => Some ([], rest)
  | None =>
      match s with
      | [] => None
      | c :: s' =>
          match closing s' with
          | Some (h, rest) => Some (c :: h, rest)
          | None => None
          end
      end
  end.

(** [content.match(frontmatterRegex)]: three dashes at the start of the
    text and a line break, the shortest header that a line break and
    three dashes follow, then an optional carriage return and an optional
    line feed, and the rest of the text as the body.  The result is the
    pair (frontmatter, body), the frontmatter [None] for [null]. *)
Definition extractFrontmatter (content : jsstring)
    : option jsstring * jsstring :=
  match strip_prefix (lit "---") content with
  | Some r =>
      match eol r with
      | Some r' =>
          match closing r' with
          | Some (h, rest) => (Some h, optional 10 (optional 13 rest))
          | None => (None, content)
          end
      | None => (None, content)
      end
  | None => (None, content)
  end.

Inductive ParseResult :=
| ParseSuccess (data : value) (body : jsstring)
| ParseFailure (error : ParseError).

Definition parseAgentFile (w : World) (path : jsstring) : ParseResult :=
  let failed_to_read msg :=
    ParseFailure {| error_message := lit "Failed to read file: " ++ msg;
                    error_ruleId := None |} in
  match statSync w path with
  | inl msg => failed_to_read msg
  | inr size =>
      if N.ltb (MAX_FILE_SIZE_KB * 1024) size then
        ParseFailure
          {| error_message :=
               lit "File too large (" ++ of_N ((size + 512) / 1024)
               ++ lit "KB). Maximum: " ++ of_N MAX_FILE_SIZE_KB ++ lit "KB";
             error_ruleId := None |}
      else
        match readFileSync w path with
        | inl msg => failed_to_read msg
        | inr content =>
            match extractFrontmatter content with
            | (None, _) =>
                ParseFailure
                  {| error_message :=
                       lit "Agent file must contain YAML frontmatter (content between --- markers)";
                     error_ruleId := Some FrontmatterRequired |}
            | (Some frontmatter, body) =>
                match load frontmatter with
                | LoadThrows msg =>
                    ParseFailure
                      {| error_message := lit "Invalid YAML frontmatter: " ++ msg;
                         error_ruleId := Some FrontmatterValid |}
                | LoadReturns parsed =>
                    match non_null_object parsed with
                    | Some data => ParseSuccess data body
                    | None =>
                        ParseFailure
                          {| error_message := lit "Frontmatter must be a valid YAML object";
                             error_ruleId := Some FrontmatterValid |}
                    end
                end
            end
        end
  end.

(* ------------------------------------------------------------------ *)
(** * File orchestrator *)
(* ------------------------------------------------------------------ *)

Definition validateAgentFile (path : jsstring) (options : ValidateOptions)
    (w : World) : FileValidationResult * World :=
  let ignore := ignoreRules options in
  let checkRefs := validateReferences options in
  let w1 :=
    if endsWith (lit ".chatmode.md") path
    then info (lit "Note: " ++ path_basename path
               ++ lit " uses legacy .chatmode.md extension") w
    else w in
  match parseAgentFile w1 path with
  | ParseFailure error =>
      let issue :=
        createIssue
          match error_ruleId error with
          | Some id => id
          | None => FrontmatterRequired
          end
          (Some (error_message error)) (Some path) None in
      ({| result_file := path; valid := false;
          errors := [] ++ [issue]; warnings := [] |}, w1)
  | ParseSuccess data body =>
      let st : Issues := ([], []) in
      let st := validateDescription (get data "description") ignore path st in
      let st := validateName (get data "name") ignore path st in
      let st := validateArgumentHint (get data "argument-hint") ignore path st in
      let st := validateTools (get data "tools") ignore path st in
      let st := validateAgents (get data "agents") ignore path st in
      let st := validateModel (get data "model") ignore path st in
      let st := validateBooleanField (get data "user-invokable")
                  UserInvokableFormat ignore path st in
      let st := validateBooleanField (get data "disable-model-invocation")
                  DisableModelInvocationFormat ignore path st in
      let st := validateTarget (get data "target") ignore path st in
      let st := validateMcpServers (get data "mcp-servers") ignore path st in
      let st := validateHandoffs (get data "handoffs") ignore path st in
      let st := validateInfer (get data "infer") ignore path st in
      let st := validateUnknownFields data ignore path st in
      let st := validateBody body ignore path st in
      let st :=
        if checkRefs
        then validateFileReferences w1 body (path_dirname path) ignore path st
        else st in
      ({| result_file := path;
          valid := Nat.eqb (List.length (fst st)) 0;
          errors := fst st; warnings := snd st |}, w1)
  end.

End Engine.

(* ------------------------------------------------------------------ *)
(** * A rule table and small worlds to run the validator on *)
(* ------------------------------------------------------------------ *)

(** Modelled from the spec: [rules.json] is not among the sources.  The
    severities are those of the specification's policy table (quality,
    deprecation, unknown-field and body findings are warnings, the rest
    errors); each template is the rule's name followed by the one detail
    token the rule uses. *)
Definition rules_json (id : RuleId) : RuleDefinition :=
  {| rule_severity :=
       match id with
       | DescriptionQuality | InferDeprecated | UnknownField
       | BodyEmpty | BodyTooLong | ReferenceNotFound => SevWarning
       | _ => SevError
       end;
     rule_message :=
       ruleName id ++ lit ": " ++
       lit match id with
           | DescriptionQuality => "{length}"
           | BodyTooLong => "{lines}"
           | TargetValid => "{value}"
           | UnknownField => "{field} ({knownFields})"
           | ReferenceNotFound => "{path}"
           | HandoffLabelRequired | HandoffAgentRequired
           | HandoffSendFormat | HandoffModelFormat => "{index}"
           | _ => "{detail}"
           end%string |}.

Module Sample.

(** A decoder for the headers of the sample files below; every other
    header decodes to an empty mapping. *)
Definition load (header : jsstring) : LoadResult :=
  if JsString.eqb header (lit "infer: false") then
    LoadReturns (Some (JObj [(lit "infer", JBool false)]))
  else if JsString.eqb header (lit "description: Plans work") then
    LoadReturns (Some (JObj [(lit "description", JStr (lit "Plans work"))]))
  else if JsString.eqb header (lit "tools: [") then
    LoadThrows (lit "unexpected end of the stream within a flow collection")
  else LoadReturns (Some (JObj [])).

Definition path_resolve (dir p : jsstring) : jsstring := dir ++ lit "/" ++ p.
Definition path_dirname (p : jsstring) : jsstring := lit ".".
Definition path_basename (p : jsstring) : jsstring := p.

Definition LF : jsstring := [10%N].

(** One directory with five files: no frontmatter at all, a header with
    the deprecated key, a short description over a body, a header that
    is not YAML, and a file of 600 KiB. *)
Definition disk (p : jsstring) : option (N * jsstring) :=
  if JsString.eqb p (lit "plain.agent.md") then
    Some (17%N, lit "Just some prose." ++ LF)
  else if JsString.eqb p (lit "infer.agent.md") then
    Some (28%N, lit "---" ++ LF ++ lit "infer: false" ++ LF ++ lit "---" ++ LF
                ++ lit "Body." ++ LF)
  else if JsString.eqb p (lit "planner.chatmode.md") then
    Some (50%N, lit "---" ++ LF ++ lit "description: Plans work" ++ LF
                ++ lit "---" ++ LF ++ lit "See [notes](notes.md)." ++ LF)
  else if JsString.eqb p (lit "broken.agent.md") then
    Some (22%N, lit "---" ++ LF ++ lit "tools: [" ++ LF ++ lit "---" ++ LF
                ++ lit "Body." ++ LF)
  else if JsString.eqb p (lit "huge.agent.md") then
    Some (614400%N, lit "---" ++ LF ++ lit "infer: false" ++ LF ++ lit "---" ++ LF)
  else None.

Definition world : World :=
  {| statSync := fun p =>
       match disk p with
       | Some (size, _) => inr size
       | None => inl (lit "ENOENT: no such file or directory")
       end;
     readFileSync := fun p =>
       match disk p with
       | Some (_, text) => inr text
       | None => inl (lit "ENOENT: no such file or directory")
       end;
     existsSync := fun p =>
       match disk p with Some _ => true | None => false end;
     console := [] |}.

Definition validate (p : jsstring) (o : ValidateOptions) (w : World) :=
  validateAgentFile rules_json load path_resolve path_dirname path_basename
                    p o w.

Definition options (ignore : list string) (refs : bool) (p : string) :=
  {| ignoreRules := map lit ignore; validateReferences := refs;
     filePath := lit p |}.

End Sample.

(* ------------------------------------------------------------------ *)
(** * Vocabulary of the properties *)
(* ------------------------------------------------------------------ *)

(** A text made of white space only; the empty text is. *)
Definition blank (s : jsstring) : bool := forallb is_space s.

(** One of the two line-ending conventions. *)
Definition line_break (nl : jsstring) : Prop :=
  nl = [10%N] \/ nl = [13%N; 10%N].

(** The text opens with a delimiter line and a closing delimiter follows
    a later line break. *)
Definition delimited (content : jsstring) : Prop :=
  exists nl1 header nl2 rest,
    line_break nl1 /\ line_break nl2 /\
    content = lit "---" ++ nl1 ++ header ++ nl2 ++ lit "---" ++ rest.

(** A handoff element that is [undefined], [null] or a scalar. *)
Definition scalar_or_null (v : unknown) : Prop :=
  match v with
  | None | Some JNull | Some (JBool _) | Some (JNum _) | Some (JStr _) => True
  | Some (JArr _) | Some (JObj _) | Some (JDate _) => False
  end.

Definition RuleId_eq_dec (a b : RuleId) : {a = b} + {a <> b}.
Proof. decide equality. Defined.

(** All the issues collected so far, errors first. *)
Definition all_issues (st : Issues) : list ValidationIssue := fst st ++ snd st.

(** How many of the issues collected so far carry the rule [id]. *)
Definition count (id : RuleId) (st : Issues) : nat :=
  List.length
    (filter (fun i => if RuleId_eq_dec (ruleId i) id then true else false)
            (all_issues st)).

(** [st'] is [st] with the [issues] whose rule is not ignored appended in
    order, each to the list of its severity: what a validator leaves
    behind when it hands exactly these issues to the collector. *)
Definition yields (ignore : list jsstring) (issues : list ValidationIssue)
    (st st' : Issues) : Prop :=
  st' = fold_left (fun acc i => push i acc)
          (filter (fun i => negb (includes (ruleName (ruleId i)) ignore)) issues)
          st.

(** The rule under which a parse failure is reported:
    [error.ruleId || "frontmatter-required"]. *)
Definition failure_rule (e : ParseError) : RuleId :=
  match error_ruleId e with
  | Some id => id
  | None => FrontmatterRequired
  end.

(** Two worlds with the same files; their consoles may differ. *)
Definition same_files (w w' : World) : Prop :=
  (forall p, statSync w p = statSync w' p) /\
  (forall p, readFileSync w p = readFileSync w' p) /\
  (forall p, existsSync w p = existsSync w' p).

(** [st'] is [st] after some calls of the collector, all with the same
    ignore list. *)
Inductive collected (rules : RuleId -> RuleDefinition) (ignore : list jsstring)
  : Issues -> Issues -> Prop :=
| collected_none : forall st, collected rules ignore st st
| collected_add : forall st st' id detail f l,
    collected rules ignore st st' ->
    collected rules ignore st (addIssue rules id detail ignore f l st').

(* ------------------------------------------------------------------ *)
(** * The action around the engine: inputs, path discovery, the run *)
(* ------------------------------------------------------------------ *)

(** [s.split(sep)] for a separator of one code unit: the pieces between
    separators, at least one. *)
Fixpoint split_on (sep : N) (s : jsstring) : list jsstring :=
  match s with
  | [] => [[]]
  | c :: s' =>
      if N.eqb c sep then [] :: split_on sep s'
      else match split_on sep s' with
           | piece :: rest => (c :: piece) :: rest
           | [] => [[c]]
           end
  end.

(** [[...new Set(files)]]: the first occurrence of every path, in
    order.  [seen] is what the set already holds. *)
Fixpoint dedupe (seen files : list jsstring) : list jsstring :=
  match files with
  | [] => []
  | x :: rest =>
      if includes x seen then dedupe seen rest
      else x :: dedupe (x :: seen) rest
  end.

Record ActionInputs := {
  input_path : jsstring;
  failOnWarning : bool;
  input_ignoreRules : list jsstring;
  input_validateReferences : bool
}.

Inductive PathResolutionResult :=
| PathResolutionSuccess (files : list jsstring)
| PathResolutionFailure (error : ParseError).

(** What path discovery asks of [node:fs] beyond the [World]: the kind
    of an entry ([stats.isFile()], [stats.isDirectory()]) and the names
    in a directory; [readdirSync] throws (left) or answers (right). *)
Record Tree := {
  isFile : jsstring -> bool;
  isDirectory : jsstring -> bool;
  readdirSync : jsstring -> jsstring + list jsstring
}.

(** What is handed to [JSON.stringify] or [String] for an output. *)
Inductive OutputValue :=
| OutText (s : jsstring)
| OutIssues (issues : list ValidationIssue)
| OutMessages (messages : list jsstring).

(** The calls of the Actions toolkit other than [info], in order:
    [error(msg, {title})], [warning(msg, {title})], [setOutput] and
    [setFailed].  The lines of [info] go to the world's console. *)
Inductive Event :=
| EvError (msg title : jsstring)
| EvWarning (msg title : jsstring)
| SetOutput (name : jsstring) (value : OutputValue)
| SetFailed (msg : jsstring).

Section Action.

Variable rules : RuleId -> RuleDefinition.
Variable load : jsstring -> LoadResult.
Variable path_resolve : jsstring -> jsstring -> jsstring.
Variable path_dirname : jsstring -> jsstring.
Variable path_basename : jsstring -> jsstring.

(** [path.resolve] of one path, [path.join] of its segments, and
    [getInput] of the Actions toolkit. *)
Variable path_resolve1 : jsstring -> jsstring.
Variable path_join : list jsstring -> jsstring.
Variable getInput : jsstring -> jsstring.

Definition getInputs : ActionInputs :=
  {| input_path :=
       match getInput (lit "path") with
       | [] => lit "."
       | p => p
       end;
     failOnWarning := JsString.eqb (getInput (lit "fail-on-warning")) (lit "true");
     input_ignoreRules :=
       filter (fun r => Nat.ltb 0 (List.length r))
              (map trim (split_on 44 (getInput (lit "ignore-rules"))));
     input_validateReferences :=
       JsString.eqb (getInput (lit "validate-references")) (lit "true") |}.

(** [readdirSync(dir).filter(f => f.endsWith(ext)).map(f => path.join(dir, f))]. *)
Definition listed (t : Tree) (dir ext : jsstring) : jsstring + list jsstring :=
  match readdirSync t dir with
  | inl msg => inl msg
  | inr names =>
      inr (map (fun f => path_join [dir; f]) (filter (endsWith ext) names))
  end.

(** The same, guarded by [if (fs.existsSync(dir))]. *)
Definition listed_if_exists (w : World) (t : Tree) (dir ext : jsstring)
    : jsstring + list jsstring :=
  if existsSync w dir then listed t dir ext else inr [].

(** [resolveAgentPaths]; left when a call of [node:fs] throws, which the
    function does not catch. *)
Definition resolveAgentPaths (w : World) (t : Tree) (inputPath : jsstring)
    : jsstring + PathResolutionResult :=
  let resolvedPath := path_resolve1 inputPath in
  if negb (existsSync w resolvedPath) then
    inr (PathResolutionFailure
           {| error_message := lit "Path not found: " ++ inputPath;
              error_ruleId := None |})
  else
    match statSync w resolvedPath with
    | inl msg => inl msg
    | inr _ =>
        if isFile t resolvedPath then
          if negb (endsWith (lit ".agent.md") resolvedPath) then
            inr (PathResolutionFailure
                   {| error_message :=
                        lit "File must have .agent.md extension: " ++ inputPath;
                      error_ruleId := Some FileExtension |})
          else inr (PathResolutionSuccess [resolvedPath])
        else if isDirectory t resolvedPath then
          let agentsDir := path_join [resolvedPath; lit ".github"; lit "agents"] in
          match listed_if_exists w t agentsDir (lit ".agent.md") with
          | inl msg => inl msg
          | inr agentFiles =>
              match listed t resolvedPath (lit ".agent.md") with
              | inl msg => inl msg
              | inr rootFiles =>
                  let legacyChatmodesDir :=
                    path_join [resolvedPath; lit ".github"; lit "chatmodes"] in
                  match listed_if_exists w t legacyChatmodesDir
                                         (lit ".chatmode.md") with
                  | inl msg => inl msg
                  | inr chatmodeFiles =>
                      let files := agentFiles ++ rootFiles ++ chatmodeFiles in
                      if Nat.eqb (List.length files) 0 then
                        inr (PathResolutionFailure
                               {| error_message :=
                                    lit "No .agent.md files found in: " ++ inputPath;
                                  error_ruleId := None |})
                      else inr (PathResolutionSuccess (dedupe [] files))
                  end
              end
          end
        else
          inr (PathResolutionFailure
                 {| error_message := lit "Invalid path type: " ++ inputPath;
                    error_ruleId := None |})
    end.

(** The first loop of [run]: one result per file, in order. *)
Fixpoint validateFiles (files : list jsstring) (inputs : ActionInputs)
    (w : World) : list FileValidationResult * World :=
  match files with
  | [] => ([], w)
  | p :: rest =>
      let w1 := info (lit "Validating: " ++ path_basename p) w in
      let (result, w2) :=
        validateAgentFile rules load path_resolve path_dirname path_basename p
          {| ignoreRules := input_ignoreRules inputs;
             validateReferences := input_validateReferences inputs;
             filePath := p |} w1 in
      let (results, w3) := validateFiles rest inputs w2 in
      (result :: results, w3)
  end.

(** The second loop of [run]: the annotations of one result, and the
    line of praise when it is valid. *)
Definition annotations (result : FileValidationResult) : list Event :=
  let fileName := path_basename (result_file result) in
  map (fun err => EvError (lit "[" ++ fileName ++ lit "] " ++ message err)
                          (ruleName (ruleId err)))
      (errors result)
  ++ map (fun warn => EvWarning (lit "[" ++ fileName ++ lit "] " ++ message warn)
                                (ruleName (ruleId warn)))
         (warnings result).

Definition praise (result : FileValidationResult) (w : World) : World :=
  let fileName := path_basename (result_file result) in
  if valid result && Nat.eqb (List.length (warnings result)) 0 then
    info ([10003%N] ++ lit " " ++ fileName ++ lit " is valid") w
  else if valid result then
    info ([10003%N] ++ lit " " ++ fileName ++ lit " is valid (with warnings)") w
  else w.

(** [run] once the paths are resolved. *)
Definition report (inputs : ActionInputs) (files : list jsstring) (w : World)
    : list Event * World :=
  let w := info (lit "Found " ++ of_nat (List.length files)
                 ++ lit " agent file(s) to validate") w in
  let (fileResults, w) := validateFiles files inputs w in
  let allErrors := flat_map errors fileResults in
  let allWarnings := flat_map warnings fileResults in
  let w := fold_left (fun acc result => praise result acc) fileResults w in
  let hasErrors := Nat.ltb 0 (List.length allErrors) in
  let hasWarnings := Nat.ltb 0 (List.length allWarnings) in
  let isValid :=
    negb hasErrors && (negb (failOnWarning inputs) || negb hasWarnings) in
  let w := info (lit "---") w in
  let w := info (lit "Files validated: " ++ of_nat (List.length fileResults)) w in
  let w := info (lit "Errors: " ++ of_nat (List.length allErrors)) w in
  let w := info (lit "Warnings: " ++ of_nat (List.length allWarnings)) w in
  let outputs :=
    flat_map annotations fileResults
    ++ [SetOutput (lit "valid") (OutText (if isValid then lit "true" else lit "false"));
        SetOutput (lit "errors") (OutIssues allErrors);
        SetOutput (lit "warnings") (OutIssues allWarnings);
        SetOutput (lit "files-validated")
                  (OutText (of_nat (List.length fileResults)))] in
  if negb isValid then
    if hasErrors then
      (outputs ++ [SetFailed (lit "Validation failed with "
                              ++ of_nat (List.length allErrors) ++ lit " error(s)")],
       w)
    else if failOnWarning inputs && hasWarnings then
      (outputs ++ [SetFailed (lit "Validation failed with "
                              ++ of_nat (List.length allWarnings)
                              ++ lit " warning(s) (fail-on-warning enabled)")],
       w)
    else (outputs, w)
  else
    (outputs, info ([10003%N] ++ lit " All agent files are valid") w).

Definition run (w : World) (t : Tree) : list Event * World :=
  let inputs := getInputs in
  let w := info (lit "Validating agent files in: " ++ input_path inputs) w in
  let w :=
    if Nat.ltb 0 (List.length (input_ignoreRules inputs))
    then info (lit "Ignoring rules: "
               ++ join (lit ", ") (input_ignoreRules inputs)) w
    else w in
  let w :=
    if input_validateReferences inputs
    then info (lit "Reference validation enabled") w
    else w in
  match resolveAgentPaths w t (input_path inputs) with
  | inl msg => ([SetFailed (lit "Unexpected error: " ++ msg)], w)
  | inr (PathResolutionFailure error) =>
      ([SetFailed (error_message error);
        SetOutput (lit "valid") (OutText (lit "false"));
        SetOutput (lit "errors") (OutMessages [error_message error]);
        SetOutput (lit "warnings") (OutIssues []);
        SetOutput (lit "files-validated") (OutText (lit "0"))], w)
  | inr (PathResolutionSuccess files) => report inputs files w
  end.

End Action.

(* ------------------------------------------------------------------ *)
(** * Vocabulary of the further properties *)
(* ------------------------------------------------------------------ *)

(** The rules the field, body and reference validators report under. *)
Definition engine_rules : list RuleId :=
  [DescriptionFormat; DescriptionQuality; NameFormat; ArgumentHintFormat;
   ToolsFormat; AgentsFormat; ModelFormat; UserInvokableFormat;
   DisableModelInvocationFormat; TargetValid; McpServersFormat;
   HandoffsFormat; HandoffLabelRequired; HandoffAgentRequired;
   HandoffSendFormat; HandoffModelFormat; InferDeprecated; UnknownField;
   BodyEmpty; BodyTooLong; ReferenceNotFound].

(** The positions, counted from [i], of the items that are not strings. *)
Fixpoint non_string_indices (items : list value) (i : nat) : list nat :=
  match items with
  | [] => []
  | x :: rest =>
      if is_string (Some x) then non_string_indices rest (S i)
      else i :: non_string_indices rest (S i)
  end.

Definition item_detail (i : nat) : jsstring :=
  lit "Item at index " ++ of_nat i ++ lit " is not a string".

(** A link target the reference validator does not look up: an absolute
    URL or an anchor. *)
Definition external (linkPath : jsstring) : bool :=
  startsWith (lit "http://") linkPath
  || startsWith (lit "https://") linkPath
  || startsWith (lit "#") linkPath.

(** A value that is absent, or passes [ok]. *)
Definition absent_or (ok : value -> bool) (v : unknown) : bool :=
  match v with
  | None | Some JNull => true
  | Some x => ok x
  end.

Definition all_strings (x : value) : bool :=
  match x with
  | JArr items => forallb (fun y => is_string (Some y)) items
  | _ => false
  end.

(** A handoff with a label and an agent, both non-empty strings, and, if
    present, a boolean [send] and a string [model]. *)
Definition complete_handoff (h : value) : bool :=
  match non_null_object (Some h) with
  | None => false
  | Some o =>
      truthy (get o "label") && is_string (get o "label")
      && truthy (get o "agent") && is_string (get o "agent")
      && match get o "send" with
         | None => true
         | Some v => is_boolean (Some v)
         end
      && match get o "model" with
         | None => true
         | Some v => is_string (Some v)
         end
  end.

(** A document every field of which is as the schema wants it: a
    description of at least 50 code units, no deprecated or unknown key,
    and each optional field absent or of its shape. *)
Definition well_formed (data : value) : bool :=
  match get data "description" with
  | Some (JStr d) => negb (blank d) && Nat.leb 50 (List.length d)
  | _ => false
  end
  && absent_or (fun x => is_string (Some x)) (get data "name")
  && absent_or (fun x => is_string (Some x)) (get data "argument-hint")
  && absent_or all_strings (get data "tools")
  && absent_or (fun x => all_strings x
                         || match x with
                            | JStr s => JsString.eqb s (lit "*")
                            | _ => false
                            end) (get data "agents")
  && absent_or (fun x => is_string (Some x) || all_strings x) (get data "model")
  && absent_or (fun x => is_boolean (Some x)) (get data "user-invokable")
  && absent_or (fun x => is_boolean (Some x)) (get data "disable-model-invocation")
  && absent_or (fun x => match x with
                         | JStr s => includes s VALID_TARGETS
                         | _ => false
                         end) (get data "target")
  && absent_or (fun x => isArray (Some x)) (get data "mcp-servers")
  && absent_or (fun x => match x with
                         | JArr items => forallb complete_handoff items
                         | _ => false
                         end) (get data "handoffs")
  && match get data "infer" with None => true | Some _ => false end
  && forallb (fun key => includes key KNOWN_FIELDS) (Object_keys data).

(** An issue as the collector makes it for the file [f]: stamped with the
    file, without a line, and with the severity of its rule. *)
Definition stamped (rules : RuleId -> RuleDefinition) (f : jsstring)
    (i : ValidationIssue) : Prop :=
  file i = Some f /\ line i = None
  /\ severity i = rule_severity (rules (ruleId i)).

(** [st'] is [st] with issues appended and nothing else changed: every
    new issue is stamped, is under a rule of [ids], and is in the first
    list when its severity is error, in the second when it is warning. *)
Definition appends (rules : RuleId -> RuleDefinition) (f : jsstring)
    (ids : list RuleId) (st st' : Issues) : Prop :=
  exists new_errors new_warnings,
    st' = (fst st ++ new_errors, snd st ++ new_warnings)
    /\ Forall (fun i => severity i = SevError /\ stamped rules f i
                         /\ In (ruleId i) ids) new_errors
    /\ Forall (fun i => severity i = SevWarning /\ stamped rules f i
                         /\ In (ruleId i) ids) new_warnings.

(** The detail tokens of the message templates that stand for the detail
    itself. *)
Definition detail_tokens : list jsstring :=
  map lit ["{detail}"; "{length}"; "{lines}"; "{value}"; "{field}";
           "{path}"; "{index}"]%string.

(* ------------------------------------------------------------------ *)
(** * A small repository to run the action on *)
(* ------------------------------------------------------------------ *)

Module Demo.

(** The rule table above, with a template for name-format that holds no
    token. *)
Definition rules (id : RuleId) : RuleDefinition :=
  match id with
  | NameFormat =>
      {| rule_severity := SevError;
         rule_message := lit "The name field must be a string." |}
  | _ => rules_json id
  end.

Definition path_resolve1 (p : jsstring) : jsstring := p.
Definition path_join (segments : list jsstring) : jsstring :=
  join (lit "/") segments.
Definition path_resolve (dir p : jsstring) : jsstring := dir ++ lit "/" ++ p.

Definition path_dirname (p : jsstring) : jsstring :=
  match until 47 (rev p) with
  | Some (_, d) => rev d
  | None => lit "."
  end.

Definition path_basename (p : jsstring) : jsstring :=
  match until 47 (rev p) with
  | Some (b, _) => rev b
  | None => p
  end.

Definition LF : jsstring := [10%N].

Definition reviewer_header : jsstring :=
  lit "description: Reviews pull requests for style, correctness and missing tests."
  ++ LF ++ lit "name: Reviewer".

Definition reviewer_text : jsstring :=
  lit "---" ++ LF ++ reviewer_header ++ LF ++ lit "---" ++ LF
  ++ lit "Review the diff as the [guide](guide.md) says." ++ LF.

Definition load (header : jsstring) : LoadResult :=
  if JsString.eqb header reviewer_header then
    LoadReturns
      (Some (JObj [(lit "description",
                    JStr (lit "Reviews pull requests for style, correctness and missing tests."));
                   (lit "name", JStr (lit "Reviewer"))]))
  else Sample.load header.

Inductive Entry :=
| File (size : N) (text : jsstring)
| Directory (names : list jsstring).

(** A repository with one agent and its guide under [.github/agents] and
    one legacy chat mode under [.github/chatmodes]. *)
Definition disk (p : jsstring) : option Entry :=
  if JsString.eqb p (lit "/repo") then
    Some (Directory [lit ".github"; lit "README.md"])
  else if JsString.eqb p (lit "/repo/README.md") then
    Some (File 9%N (lit "# Agents" ++ LF))
  else if JsString.eqb p (lit "/repo/.github/agents") then
    Some (Directory [lit "guide.md"; lit "reviewer.agent.md"])
  else if JsString.eqb p (lit "/repo/.github/agents/guide.md") then
    Some (File 8%N (lit "# Guide" ++ LF))
  else if JsString.eqb p (lit "/repo/.github/agents/reviewer.agent.md") then
    Some (File 147%N reviewer_text)
  else if JsString.eqb p (lit "/repo/.github/chatmodes") then
    Some (Directory [lit "old.chatmode.md"])
  else if JsString.eqb p (lit "/repo/.github/chatmodes/old.chatmode.md") then
    Some (File 27%N (lit "---" ++ LF ++ lit "infer: false" ++ LF ++ lit "---"
                     ++ LF ++ lit "Old." ++ LF))
  else None.

Definition world : World :=
  {| statSync := fun p =>
       match disk p with
       | Some (File size _) => inr size
       | Some (Directory _) => inr 4096%N
       | None => inl (lit "ENOENT: no such file or directory")
       end;
     readFileSync := fun p =>
       match disk p with
       | Some (File _ text) => inr text
       | Some (Directory _) => inl (lit "EISDIR: illegal operation on a directory")
       | None => inl (lit "ENOENT: no such file or directory")
       end;
     existsSync := fun p =>
       match disk p with Some _ => true | None => false end;
     console := [] |}.

Definition tree : Tree :=
  {| isFile := fun p =>
       match disk p with Some (File _ _) => true | _ => false end;
     isDirectory := fun p =>
       match disk p with Some (Directory _) => true | _ => false end;
     readdirSync := fun p =>
       match disk p with
       | Some (Directory names) => inr names
       | Some (File _ _) => inl (lit "ENOTDIR: not a directory")
       | None => inl (lit "ENOENT: no such file or directory")
       end |}.

(** The inputs of a workflow that ignores two rules and lets warnings
    fail the run. *)
Definition getInput (name : jsstring) : jsstring :=
  if JsString.eqb name (lit "path") then lit "/repo"
  else if JsString.eqb name (lit "ignore-rules") then
    lit "description-format, infer-deprecated"
  else if JsString.eqb name (lit "fail-on-warning") then lit "true"
  else if JsString.eqb name (lit "validate-references") then lit "true"
  else [].

Definition validate (p : jsstring) (o : ValidateOptions) (w : World) :=
  validateAgentFile rules load path_resolve path_dirname path_basename p o w.


End Demo.

(* ------------------------------------------------------------------ *)
(** * Strings: lemmas *)
(* ------------------------------------------------------------------ *)

Lemma eqb_eq (a b : jsstring) : JsString.eqb a b = true <-> a = b.
Proof.
  revert b; induction a as [|x a IH]; intros [|y b]; simpl;
    try (split; intro H; (reflexivity || discriminate)).
  rewrite andb_true_iff, N.eqb_eq, IH.
  split; [intros [-> ->]; reflexivity | intros H; inversion H; auto].
Qed.

Lemma includes_In (x : jsstring) (l : list jsstring) :
  includes x l = true <-> In x l.
Proof.
  unfold includes. rewrite existsb_exists. split.
  - intros (y & Hy & E). apply eqb_eq in E. subst. assumption.
  - intros H. exists x. split; [assumption | apply eqb_eq; reflexivity].
Qed.

Lemma ruleName_inj (a b : RuleId) : ruleName a = ruleName b -> a = b.
Proof.
  destruct a, b; intro H; try reflexivity; vm_compute in H; discriminate H.
Qed.

Lemma trimStart_nil (s : jsstring) : trimStart s = [] <-> blank s = true.
Proof.
  induction s as [|c s IH]; simpl.
  - tauto.
  - destruct (is_space c); simpl; [exact IH | split; discriminate].
Qed.

Lemma trimStart_head (s : jsstring) (c : N) (r : jsstring) :
  trimStart s = c :: r -> is_space c = false.
Proof.
  induction s as [|x s IH]; simpl; [discriminate|].
  destruct (is_space x) eqn:E; [exact IH|].
  intros H; inversion H; subst; assumption.
Qed.

Lemma blank_rev (s : jsstring) : blank (rev s) = blank s.
Proof.
  unfold blank. induction s as [|c s IH]; simpl; [reflexivity|].
  rewrite forallb_app, IH. simpl. rewrite andb_true_r. apply andb_comm.
Qed.

(** [s.trim().length === 0] says that [s] is white space only. *)
Lemma trim_length_0 (s : jsstring) :
  Nat.eqb (List.length (trim s)) 0 = blank s.
Proof.
  unfold trim, trimEnd. rewrite length_rev.
  destruct (blank s) eqn:B.
  - apply trimStart_nil in B. rewrite B. reflexivity.
  - destruct (trimStart (rev (trimStart s))) as [|c r] eqn:E; [|reflexivity].
    exfalso. apply trimStart_nil in E. rewrite blank_rev in E.
    destruct (trimStart s) as [|x t] eqn:T.
    + apply trimStart_nil in T. congruence.
    + apply trimStart_head in T. simpl in E. rewrite T in E. discriminate.
Qed.

Lemma strip_prefix_Some (p s r : jsstring) :
  strip_prefix p s = Some r <-> s = p ++ r.
Proof.
  revert s; induction p as [|x p IH]; intros s; simpl.
  - split; [intros H; inversion H; reflexivity | intros ->; reflexivity].
  - destruct s as [|y s]; [split; discriminate|].
    destruct (N.eqb x y) eqn:E.
    + apply N.eqb_eq in E. subst y. rewrite IH.
      split; [intros ->; reflexivity | intros H; inversion H; reflexivity].
    + apply N.eqb_neq in E. split; [discriminate|].
      intros H; inversion H; congruence.
Qed.

Lemma eol_Some (s r : jsstring) :
  eol s = Some r <-> exists nl, line_break nl /\ s = nl ++ r.
Proof.
  unfold eol, line_break. split.
  - destruct s as [|c s]; [discriminate|].
    destruct (N.eqb c 13) eqn:E13.
    + apply N.eqb_eq in E13. subst c.
      destruct s as [|d s]; [discriminate|].
      destruct (N.eqb d 10) eqn:E10; [|discriminate].
      apply N.eqb_eq in E10. subst d.
      intros H; inversion H; subst. exists [13%N; 10%N]. auto.
    + destruct (N.eqb c 10) eqn:E10; [|discriminate].
      apply N.eqb_eq in E10. subst c.
      intros H; inversion H; subst. exists [10%N]. auto.
  - intros (nl & [-> | ->] & ->); reflexivity.
Qed.

Lemma closing_Some (s h rest : jsstring) :
  closing s = Some (h, rest) ->
  exists nl, line_break nl /\ s = h ++ nl ++ lit "---" ++ rest.
Proof.
  revert h; induction s as [|c s IH]; intros h.
  - simpl. discriminate.
  - cbn [closing].
    destruct (match eol (c :: s) with
              | Some r => strip_prefix (lit "---") r
              | None => None
              end) as [rest'|] eqn:E.
    + intros H; inversion H; subst.
      destruct (eol (c :: s)) as [r|] eqn:El; [|discriminate].
      apply eol_Some in El. destruct El as (nl & Hnl & ->).
      apply strip_prefix_Some in E. subst r. exists nl. auto.
    + destruct (closing s) as [[h' rest']|] eqn:C; [|discriminate].
      intros H; inversion H; subst.
      destruct (IH h' eq_refl) as (nl & Hnl & ->).
      exists nl. auto.
Qed.

Lemma closing_found (h nl rest : jsstring) :
  line_break nl -> closing (h ++ nl ++ lit "---" ++ rest) <> None.
Proof.
  intros Hnl. induction h as [|c h IH].
  - assert (E : eol (nl ++ lit "---" ++ rest) = Some (lit "---" ++ rest))
      by (apply eol_Some; exists nl; auto).
    assert (P : strip_prefix (lit "---") (lit "---" ++ rest) = Some rest)
      by (apply strip_prefix_Some; reflexivity).
    destruct Hnl as [-> | ->]; cbn [app closing] in *; rewrite E, P; discriminate.
  - cbn [app closing].
    destruct (match eol (c :: h ++ nl ++ lit "---" ++ rest) with
              | Some r => strip_prefix (lit "---") r
              | None => None
              end); [discriminate|].
    destruct (closing (h ++ nl ++ lit "---" ++ rest)) as [[? ?]|];
      [discriminate | congruence].
Qed.

(** The splitter finds no header exactly in the texts without a
    delimiter pair. *)
Lemma extractFrontmatter_None (content : jsstring) :
  fst (extractFrontmatter content) = None <-> ~ delimited content.
Proof.
  unfold extractFrontmatter, delimited. split.
  - intros H (nl1 & header & nl2 & rest & H1 & H2 & ->).
    assert (P : strip_prefix (lit "---")
                  (lit "---" ++ nl1 ++ header ++ nl2 ++ lit "---" ++ rest)
                = Some (nl1 ++ header ++ nl2 ++ lit "---" ++ rest))
      by (apply strip_prefix_Some; reflexivity).
    rewrite P in H.
    assert (E : eol (nl1 ++ header ++ nl2 ++ lit "---" ++ rest)
                = Some (header ++ nl2 ++ lit "---" ++ rest))
      by (apply eol_Some; exists nl1; auto).
    rewrite E in H.
    pose proof (@closing_found header nl2 rest H2) as C.
    destruct (closing (header ++ nl2 ++ lit "---" ++ rest)) as [[? ?]|];
      [discriminate H | congruence].
  - intros H.
    destruct (strip_prefix (lit "---") content) as [r|] eqn:P; [|reflexivity].
    destruct (eol r) as [r'|] eqn:E; [|reflexivity].
    destruct (closing r') as [[h rest]|] eqn:C; [|reflexivity].
    exfalso. apply H.
    apply strip_prefix_Some in P. apply eol_Some in E.
    destruct E as (nl1 & H1 & ->).
    apply closing_Some in C. destruct C as (nl2 & H2 & ->).
    exists nl1, h, nl2, rest. auto.
Qed.

(* ------------------------------------------------------------------ *)
(** * Lists of issues, documents and worlds: lemmas *)
(* ------------------------------------------------------------------ *)

Lemma push_error issue es ws :
  severity issue = SevError -> push issue (es, ws) = (es ++ [issue], ws).
Proof. unfold push. intros ->. reflexivity. Qed.

Lemma push_warning issue es ws :
  severity issue = SevWarning -> push issue (es, ws) = (es, ws ++ [issue]).
Proof. unfold push. intros ->. reflexivity. Qed.

Lemma In_push issue x st :
  In x (all_issues (push issue st)) <-> In x (all_issues st) \/ x = issue.
Proof.
  unfold all_issues, push. destruct st as [es ws].
  destruct (severity issue); simpl; repeat rewrite in_app_iff; simpl;
    intuition congruence.
Qed.

Lemma count_push id issue st :
  count id (push issue st)
  = count id st + (if RuleId_eq_dec (ruleId issue) id then 1 else 0).
Proof.
  unfold count, all_issues, push. destruct st as [es ws].
  destruct (severity issue); simpl;
    repeat rewrite filter_app; repeat rewrite length_app; simpl;
    destruct (RuleId_eq_dec (ruleId issue) id); simpl; lia.
Qed.

Lemma of_nat_nonempty (n : nat) : of_nat n <> [].
Proof.
  unfold of_nat, of_N. destruct (N.of_nat n) as [|p].
  - vm_compute. discriminate.
  - cbn [N.to_uint]. pose proof (DecimalPos.Unsigned.to_uint_nonnil p) as H.
    destruct (Pos.to_uint p); [congruence | ..]; cbn; discriminate.
Qed.

Lemma of_nat_not_infer (n : nat) : of_nat n <> lit "infer".
Proof.
  unfold of_nat, of_N.
  destruct (N.to_uint (N.of_nat n)); cbn; discriminate.
Qed.

Lemma assoc_In k props : In k (map fst props) <-> assoc k props <> None.
Proof.
  induction props as [|[k' v] props IH]; simpl.
  - tauto.
  - destruct (JsString.eqb k k') eqn:E.
    + apply eqb_eq in E. subst. split; [discriminate | auto].
    + rewrite <- IH. split; [intros [H | H]; [|assumption] | auto].
      subst k'. assert (JsString.eqb k k = true) by (apply eqb_eq; reflexivity).
      congruence.
Qed.

(** The [infer] key is among a document's keys exactly when reading it
    gives something other than [undefined]. *)
Lemma infer_key_present data :
  In (lit "infer") (Object_keys data) <-> get data "infer" <> None.
Proof.
  destruct data; simpl; try (split; [tauto | congruence]).
  - rewrite in_map_iff. split; [|congruence].
    intros (n & E & _). exfalso. exact (@of_nat_not_infer n E).
  - apply assoc_In.
Qed.

Lemma fold_left_ext (A B : Type) (g h : A -> B -> A) :
  (forall a x, g a x = h a x) ->
  forall xs a, fold_left g xs a = fold_left h xs a.
Proof.
  intros E xs. induction xs as [|x xs IH]; intros a; simpl;
    [reflexivity | rewrite E; apply IH].
Qed.

Lemma same_files_info msg w : same_files w (info msg w).
Proof. repeat split. Qed.

Lemma same_files_sym w w' : same_files w w' -> same_files w' w.
Proof. intros (A & B & C). repeat split; intros p; auto. Qed.

Lemma same_files_trans w1 w2 w3 :
  same_files w1 w2 -> same_files w2 w3 -> same_files w1 w3.
Proof.
  intros (A & B & C) (A' & B' & C').
  repeat split; intros p; [rewrite A | rewrite B | rewrite C]; auto.
Qed.

(* ------------------------------------------------------------------ *)
(** * The collector: lemmas *)
(* ------------------------------------------------------------------ *)

Section Properties.

Variable rules : RuleId -> RuleDefinition.
Variable load : jsstring -> LoadResult.
Variable path_resolve : jsstring -> jsstring -> jsstring.
Variable path_dirname : jsstring -> jsstring.
Variable path_basename : jsstring -> jsstring.

Lemma createIssue_ruleId id detail f l :
  ruleId (createIssue rules id detail f l) = id.
Proof. reflexivity. Qed.

Lemma addIssue_kept id detail ignore f l st :
  includes (ruleName id) ignore = false ->
  addIssue rules id detail ignore f l st
  = push (createIssue rules id detail f l) st.
Proof. unfold addIssue. intros ->. reflexivity. Qed.

Lemma addIssue_ignored id detail ignore f l st :
  includes (ruleName id) ignore = true ->
  addIssue rules id detail ignore f l st = st.
Proof. unfold addIssue. intros ->. reflexivity. Qed.

Lemma count_addIssue id id' detail ignore f l st :
  count id (addIssue rules id' detail ignore f l st)
  = count id st
    + (if includes (ruleName id') ignore then 0
       else if RuleId_eq_dec id' id then 1 else 0).
Proof.
  unfold addIssue. destruct (includes (ruleName id') ignore).
  - lia.
  - rewrite count_push, createIssue_ruleId. reflexivity.
Qed.

Lemma collected_trans ignore st1 st2 st3 :
  collected rules ignore st1 st2 -> collected rules ignore st2 st3 ->
  collected rules ignore st1 st3.
Proof.
  intros H12 H23. induction H23; [assumption|].
  apply collected_add. auto.
Qed.

Lemma collected_one ignore id detail f l st :
  collected rules ignore st (addIssue rules id detail ignore f l st).
Proof. apply collected_add, collected_none. Qed.

(** Whatever the collector preserves holds after any number of its
    calls. *)
Lemma collected_invariant ignore (P : Issues -> Prop) :
  (forall id detail f l st,
      P st -> P (addIssue rules id detail ignore f l st)) ->
  forall st st', collected rules ignore st st' -> P st -> P st'.
Proof.
  intros Hadd st st' H. induction H; auto.
Qed.

Create HintDb collect.
#[local] Hint Resolve collected_none collected_one : collect.

Ltac collect_cases :=
  cbv zeta;
  repeat first
    [ apply collected_none
    | apply collected_add
    | match goal with
      | |- collected _ _ _ (if ?b then _ else _) => destruct b
      | |- collected _ _ _ (match ?x with _ => _ end) => destruct x
      end ].

Lemma validateDescription_collected d ignore f st :
  collected rules ignore st (validateDescription rules d ignore f st).
Proof. unfold validateDescription. collect_cases. Qed.

Lemma validateName_collected v ignore f st :
  collected rules ignore st (validateName rules v ignore f st).
Proof. unfold validateName. collect_cases. Qed.

Lemma validateArgumentHint_collected v ignore f st :
  collected rules ignore st (validateArgumentHint rules v ignore f st).
Proof. unfold validateArgumentHint. collect_cases. Qed.

Lemma validateItems_collected id items ignore f :
  forall i st,
    collected rules ignore st (validateItems rules id items i ignore f st).
Proof.
  induction items as [|x items IH]; intros i st; simpl.
  - apply collected_none.
  - eapply collected_trans; [|apply IH]. collect_cases.
Qed.

Lemma validateTools_collected v ignore f st :
  collected rules ignore st (validateTools rules v ignore f st).
Proof.
  unfold validateTools.
  destruct v as [[]|]; auto using validateItems_collected with collect.
Qed.

Lemma validateAgents_collected v ignore f st :
  collected rules ignore st (validateAgents rules v ignore f st).
Proof.
  unfold validateAgents.
  destruct v as [[]|]; auto using validateItems_collected with collect.
  collect_cases.
Qed.

Lemma validateModel_collected v ignore f st :
  collected rules ignore st (validateModel rules v ignore f st).
Proof.
  unfold validateModel.
  destruct v as [[]|]; auto using validateItems_collected with collect.
Qed.

Lemma validateBooleanField_collected v id ignore f st :
  collected rules ignore st (validateBooleanField rules v id ignore f st).
Proof. unfold validateBooleanField. collect_cases. Qed.

Lemma validateTarget_collected v ignore f st :
  collected rules ignore st (validateTarget rules v ignore f st).
Proof.
  unfold validateTarget. destruct (is_nullish v); [apply collected_none|].
  match goal with |- collected _ _ _ (if ?b then _ else _) => destruct b end;
    auto with collect.
Qed.

Lemma validateMcpServers_collected v ignore f st :
  collected rules ignore st (validateMcpServers rules v ignore f st).
Proof. unfold validateMcpServers. collect_cases. Qed.

Lemma validateHandoff_collected h i ignore f st :
  collected rules ignore st (validateHandoff rules h i ignore f st).
Proof.
  unfold validateHandoff.
  destruct (non_null_object h) as [o|]; [|apply collected_one].
  collect_cases.
Qed.

Lemma validateHandoffItems_collected items ignore f :
  forall i st,
    collected rules ignore st (validateHandoffItems rules items i ignore f st).
Proof.
  induction items as [|x items IH]; intros i st; simpl.
  - apply collected_none.
  - eapply collected_trans; [apply validateHandoff_collected | apply IH].
Qed.

Lemma validateHandoffs_collected v ignore f st :
  collected rules ignore st (validateHandoffs rules v ignore f st).
Proof.
  unfold validateHandoffs.
  destruct v as [[]|]; auto using validateHandoffItems_collected with collect.
Qed.

Lemma validateInfer_collected v ignore f st :
  collected rules ignore st (validateInfer rules v ignore f st).
Proof. unfold validateInfer. collect_cases. Qed.

Lemma fold_collected (A : Type) ignore (step : Issues -> A -> Issues) :
  (forall acc x, collected rules ignore acc (step acc x)) ->
  forall xs st, collected rules ignore st (fold_left step xs st).
Proof.
  intros Hstep xs. induction xs as [|x xs IH]; intros st; simpl.
  - apply collected_none.
  - eapply collected_trans; [apply Hstep | apply IH].
Qed.

Lemma validateUnknownFields_collected data ignore f st :
  collected rules ignore st (validateUnknownFields rules data ignore f st).
Proof.
  unfold validateUnknownFields. apply fold_collected.
  intros acc key. collect_cases.
Qed.

Lemma validateBody_collected body ignore f st :
  collected rules ignore st (validateBody rules body ignore f st).
Proof. unfold validateBody. collect_cases. Qed.

Lemma validateFileReferences_collected w body dir ignore f st :
  collected rules ignore st
    (validateFileReferences rules path_resolve w body dir ignore f st).
Proof.
  unfold validateFileReferences. apply fold_collected.
  intros acc p. collect_cases.
Qed.

(* ------------------------------------------------------------------ *)
(** * The orchestrator: lemmas *)
(* ------------------------------------------------------------------ *)

Local Abbreviation validate :=
  (validateAgentFile rules load path_resolve path_dirname path_basename).

(** The parser reads the files and nothing else of the world. *)
Lemma parseAgentFile_same_files w w' path :
  same_files w w' -> parseAgentFile load w path = parseAgentFile load w' path.
Proof.
  intros (A & B & _). unfold parseAgentFile. rewrite A, B. reflexivity.
Qed.

Lemma validateFileReferences_same_files w w' body dir ignore f st :
  same_files w w' ->
  validateFileReferences rules path_resolve w body dir ignore f st
  = validateFileReferences rules path_resolve w' body dir ignore f st.
Proof.
  intros (_ & _ & C). unfold validateFileReferences.
  apply fold_left_ext. intros a x. rewrite C. reflexivity.
Qed.

(** What the orchestrator returns when the parser fails: the one issue of
    the failure, whatever the options. *)
Lemma validateAgentFile_failure path options w e :
  parseAgentFile load w path = ParseFailure e ->
  fst (validate path options w)
  = {| result_file := path; valid := false;
       errors := [createIssue rules (failure_rule e)
                    (Some (error_message e)) (Some path) None];
       warnings := [] |}.
Proof.
  intros H. unfold validateAgentFile.
  destruct (endsWith (lit ".chatmode.md") path).
  - rewrite <- (parseAgentFile_same_files path (same_files_info _ w)).
    rewrite H. reflexivity.
  - rewrite H. reflexivity.
Qed.

(** What it returns when the parser succeeds: the two lists the collector
    has filled, and the flag computed from the first. *)
Lemma validateAgentFile_success path options w data body :
  parseAgentFile load w path = ParseSuccess data body ->
  exists st,
    collected rules (ignoreRules options) ([], []) st /\
    fst (validate path options w)
    = {| result_file := path; valid := Nat.eqb (List.length (fst st)) 0;
         errors := fst st; warnings := snd st |}.
Proof.
  intros H. unfold validateAgentFile.
  set (w1 := if endsWith (lit ".chatmode.md") path then _ else w).
  assert (S1 : same_files w w1)
    by (subst w1; destruct (endsWith _ path);
        [apply same_files_info | repeat split]).
  rewrite <- (parseAgentFile_same_files path S1), H.
  eexists. split; [|reflexivity].
  repeat match goal with
         | |- collected _ _ _ (if ?b then _ else _) => destruct b
         | |- collected _ _ ?a ?a => apply collected_none
         | |- collected _ _ _ (validateFileReferences _ _ _ _ _ _ _ _) =>
             eapply collected_trans; [|apply validateFileReferences_collected]
         | |- collected _ _ _ (validateBody _ _ _ _ _) =>
             eapply collected_trans; [|apply validateBody_collected]
         | |- collected _ _ _ (validateUnknownFields _ _ _ _ _) =>
             eapply collected_trans; [|apply validateUnknownFields_collected]
         | |- collected _ _ _ (validateInfer _ _ _ _ _) =>
             eapply collected_trans; [|apply validateInfer_collected]
         | |- collected _ _ _ (validateHandoffs _ _ _ _ _) =>
             eapply collected_trans; [|apply validateHandoffs_collected]
         | |- collected _ _ _ (validateMcpServers _ _ _ _ _) =>
             eapply collected_trans; [|apply validateMcpServers_collected]
         | |- collected _ _ _ (validateTarget _ _ _ _ _) =>
             eapply collected_trans; [|apply validateTarget_collected]
         | |- collected _ _ _ (validateBooleanField _ _ _ _ _ _) =>
             eapply collected_trans; [|apply validateBooleanField_collected]
         | |- collected _ _ _ (validateModel _ _ _ _ _) =>
             eapply collected_trans; [|apply validateModel_collected]
         | |- collected _ _ _ (validateAgents _ _ _ _ _) =>
             eapply collected_trans; [|apply validateAgents_collected]
         | |- collected _ _ _ (validateTools _ _ _ _ _) =>
             eapply collected_trans; [|apply validateTools_collected]
         | |- collected _ _ _ (validateArgumentHint _ _ _ _ _) =>
             eapply collected_trans; [|apply validateArgumentHint_collected]
         | |- collected _ _ _ (validateName _ _ _ _ _) =>
             eapply collected_trans; [|apply validateName_collected]
         | |- collected _ _ _ (validateDescription _ _ _ _ _) =>
             apply validateDescription_collected
         end.
Qed.

(** The result does not depend on the console, and validating leaves the
    files as they are. *)
Lemma validateAgentFile_same_files path options w w' :
  same_files w w' ->
  fst (validate path options w) = fst (validate path options w').
Proof.
  intros S. destruct (parseAgentFile load w path) as [data body | e] eqn:P.
  - assert (P' := P). rewrite (parseAgentFile_same_files path S) in P'.
    unfold validateAgentFile.
    set (w1 := if endsWith (lit ".chatmode.md") path then _ else w).
    set (w1' := if endsWith (lit ".chatmode.md") path then _ else w').
    assert (S1 : same_files w w1)
      by (subst w1; destruct (endsWith _ path);
          [apply same_files_info | repeat split]).
    assert (S1' : same_files w' w1')
      by (subst w1'; destruct (endsWith _ path);
          [apply same_files_info | repeat split]).
    rewrite <- (parseAgentFile_same_files path S1), P.
    rewrite <- (parseAgentFile_same_files path S1'), P'.
    assert (S2 : same_files w1 w1')
      by (eapply same_files_trans; [apply same_files_sym, S1|];
          eapply same_files_trans; [apply S | apply S1']).
    destruct (validateReferences options); cbn [fst]; [|reflexivity].
    rewrite (validateFileReferences_same_files _ _ _ _ _ S2). reflexivity.
  - assert (P' := P). rewrite (parseAgentFile_same_files path S) in P'.
    rewrite (validateAgentFile_failure path options w P).
    rewrite (validateAgentFile_failure path options w' P'). reflexivity.
Qed.

Lemma validateAgentFile_keeps_files path options w :
  same_files w (snd (validate path options w)).
Proof.
  unfold validateAgentFile.
  set (w1 := if endsWith (lit ".chatmode.md") path then _ else w).
  assert (S1 : same_files w w1)
    by (subst w1; destruct (endsWith _ path);
        [apply same_files_info | repeat split]).
  destruct (parseAgentFile load w1 path); exact S1.
Qed.

Lemma createIssue_message id d f l :
  d <> [] ->
  message (createIssue rules id (Some d) f l) = render (rule_message (rules id)) d.
Proof. destruct d; [congruence | reflexivity]. Qed.

(* ------------------------------------------------------------------ *)
(** * The claims of the specification *)
(* ------------------------------------------------------------------ *)

(** C1 (as amended).  When a rule is in the caller's ignore list and the
    file parses, no issue of that rule is in the result's error or
    warning list.  When the file does not parse, the result is the single
    issue of the parse failure, which is built without consulting the
    ignore list. *)
Theorem ignored_rule_absent_once_parsed path options w id :
  In (ruleName id) (ignoreRules options) ->
  match parseAgentFile load w path with
  | ParseSuccess _ _ =>
      forall issue,
        In issue (errors (fst (validate path options w))
                  ++ warnings (fst (validate path options w))) ->
        ruleId issue <> id
  | ParseFailure e =>
      errors (fst (validate path options w))
      = [createIssue rules (failure_rule e) (Some (error_message e))
                     (Some path) None]
      /\ warnings (fst (validate path options w)) = []
  end.
Proof.
  intros Hid. destruct (parseAgentFile load w path) as [data body | e] eqn:P.
  - destruct (validateAgentFile_success path options w P) as (st & C & ->).
    cbn [errors warnings].
    refine (collected_invariant
              (fun st => forall issue,
                   In issue (all_issues st) -> ruleId issue <> id)
              _ C _).
    + intros id' detail f l st0 IH issue. unfold addIssue.
      destruct (includes (ruleName id') (ignoreRules options)) eqn:I;
        [apply IH|].
      rewrite In_push. intros [H | ->]; [apply IH, H|].
      rewrite createIssue_ruleId. intros ->.
      apply includes_In in Hid. congruence.
    + intros issue [].
  - rewrite (validateAgentFile_failure path options w P). auto.
Qed.

(** C2.  A file of more than 512 KiB is rejected on its size alone: the
    parser returns a failure that carries no rule identifier, the same
    whatever the file holds and whatever the decoder would answer, and
    the orchestrator reports that failure as the file's only issue, with
    no field validated. *)
Theorem oversize_file_rejected (load' : jsstring -> LoadResult)
    (w w' : World) path options size :
  statSync w path = inr size ->
  statSync w' path = inr size ->
  (MAX_FILE_SIZE_KB * 1024 < size)%N ->
  let failure :=
    {| error_message :=
         lit "File too large (" ++ of_N ((size + 512) / 1024)
         ++ lit "KB). Maximum: " ++ of_N MAX_FILE_SIZE_KB ++ lit "KB";
       error_ruleId := None |} in
  parseAgentFile load w path = ParseFailure failure
  /\ parseAgentFile load' w' path = ParseFailure failure
  /\ errors (fst (validate path options w))
     = [createIssue rules FrontmatterRequired (Some (error_message failure))
                    (Some path) None]
  /\ warnings (fst (validate path options w)) = []
  /\ valid (fst (validate path options w)) = false.
Proof.
  intros S S' L failure.
  apply N.ltb_lt in L.
  assert (P : parseAgentFile load w path = ParseFailure failure)
    by (unfold parseAgentFile; rewrite S, L; reflexivity).
  split; [exact P|].
  split; [unfold parseAgentFile; rewrite S', L; reflexivity|].
  rewrite (validateAgentFile_failure path options w P). auto.
Qed.

(** C4.  A file whose text has no opening/closing delimiter pair yields
    exactly one issue, of rule frontmatter-required, and nothing else: no
    field, body or unknown-field issue, whatever the options.  When the
    file is within the size limit the issue is the parser's
    "must contain YAML frontmatter"; a file over the limit, or one that
    cannot be examined, is turned away earlier and reported under the
    same rule. *)
Theorem missing_frontmatter_sole_issue path options w content :
  readFileSync w path = inr content ->
  ~ delimited content ->
  exists e,
    parseAgentFile load w path = ParseFailure e
    /\ errors (fst (validate path options w))
       = [createIssue rules FrontmatterRequired (Some (error_message e))
                      (Some path) None]
    /\ map ruleId (errors (fst (validate path options w)))
       = [FrontmatterRequired]
    /\ warnings (fst (validate path options w)) = []
    /\ valid (fst (validate path options w)) = false
    /\ match statSync w path with
       | inr size =>
           N.ltb (MAX_FILE_SIZE_KB * 1024) size = false ->
           e = {| error_message :=
                    lit "Agent file must contain YAML frontmatter (content between --- markers)";
                  error_ruleId := Some FrontmatterRequired |}
       | inl _ => True
       end.
Proof.
  intros R D.
  apply extractFrontmatter_None in D.
  assert (P : exists e,
             parseAgentFile load w path = ParseFailure e
             /\ failure_rule e = FrontmatterRequired
             /\ match statSync w path with
                | inr size =>
                    N.ltb (MAX_FILE_SIZE_KB * 1024) size = false ->
                    e = {| error_message :=
                             lit "Agent file must contain YAML frontmatter (content between --- markers)";
                           error_ruleId := Some FrontmatterRequired |}
                | inl _ => True
                end).
  { unfold parseAgentFile.
    destruct (statSync w path) as [msg | size].
    - eexists. repeat split.
    - destruct (N.ltb (MAX_FILE_SIZE_KB * 1024) size).
      + eexists. split; [reflexivity|]. split; [reflexivity | discriminate].
      + rewrite R.
        destruct (extractFrontmatter content) as [[h|] b]; simpl in D;
          [discriminate|].
        eexists. repeat split. }
  destruct P as (e & P & F & M). exists e.
  rewrite (validateAgentFile_failure path options w P), F.
  repeat split; assumption.
Qed.

(** C8.  In every result of validating a file the valid flag is true
    exactly when the error list is empty; the warning list plays no
    part. *)
Theorem valid_iff_no_errors path options w :
  valid (fst (validate path options w)) = true
  <-> errors (fst (validate path options w)) = [].
Proof.
  destruct (parseAgentFile load w path) as [data body | e] eqn:P.
  - destruct (validateAgentFile_success path options w P) as (st & _ & ->).
    cbn [valid errors]. destruct (fst st); simpl; split; congruence.
  - rewrite (validateAgentFile_failure path options w P).
    cbn [valid errors]. split; discriminate.
Qed.

(** C9.  Validating a file, then validating it again with the same
    options in the world the first run left behind, gives the same error
    list and the same warning list, element for element. *)
Theorem validateAgentFile_twice path options w :
  errors (fst (validate path options (snd (validate path options w))))
  = errors (fst (validate path options w))
  /\ warnings (fst (validate path options (snd (validate path options w))))
     = warnings (fst (validate path options w)).
Proof.
  rewrite <- (validateAgentFile_same_files path options
                (validateAgentFile_keeps_files path options w)).
  auto.
Qed.

Lemma yields_nil ignore st : yields ignore [] st st.
Proof. reflexivity. Qed.

Lemma yields_addIssue id detail ignore f l st :
  yields ignore [createIssue rules id detail f l] st
         (addIssue rules id detail ignore f l st).
Proof.
  unfold yields, addIssue. cbn [filter]. rewrite createIssue_ruleId.
  destruct (includes (ruleName id) ignore); reflexivity.
Qed.

Lemma yields_app ignore l1 l2 st st1 st2 :
  yields ignore l1 st st1 -> yields ignore l2 st1 st2 ->
  yields ignore (l1 ++ l2) st st2.
Proof.
  unfold yields. intros -> ->. rewrite filter_app, fold_left_app. reflexivity.
Qed.

Lemma total_addIssue id detail ignore f l st :
  List.length (all_issues (addIssue rules id detail ignore f l st))
  = List.length (all_issues st)
    + (if includes (ruleName id) ignore then 0 else 1).
Proof.
  unfold addIssue, push, all_issues. destruct st as [es ws].
  destruct (includes (ruleName id) ignore); [lia|].
  destruct (severity _); simpl; repeat rewrite length_app; simpl; lia.
Qed.

(** C3 (as amended).  For a handoffs element that is [null] or a scalar
    (or [undefined]), the element validator hands the collector exactly
    one issue, "Item at index i is not an object" under rule
    handoffs-format, and checks nothing else of the element: no label,
    agent, send or model issue. *)
Theorem validateHandoff_scalar_or_null handoff index ignore f st :
  scalar_or_null handoff ->
  yields ignore
    [createIssue rules HandoffsFormat
       (Some (lit "Item at index " ++ of_nat index ++ lit " is not an object"))
       (Some f) None]
    st (validateHandoff rules handoff index ignore f st).
Proof.
  intros H. destruct handoff as [[]|]; simpl in H; try contradiction;
    apply yields_addIssue.
Qed.

(** C5 (as amended).  An absent or null description, and a string that is
    empty or white space only, yield one description-format issue.  A
    string that is not white space only and is shorter than 50 code
    units yields one description-quality issue whose detail, substituted
    into the rule's template, is the decimal text of its length.  A
    longer string yields nothing. *)
Theorem validateDescription_policy s ignore f st :
  yields ignore [createIssue rules DescriptionFormat None (Some f) None] st
         (validateDescription rules None ignore f st)
  /\ yields ignore [createIssue rules DescriptionFormat None (Some f) None] st
            (validateDescription rules (Some JNull) ignore f st)
  /\ if blank s then
       yields ignore [createIssue rules DescriptionFormat None (Some f) None] st
              (validateDescription rules (Some (JStr s)) ignore f st)
     else if Nat.ltb (List.length s) 50 then
       yields ignore
         [createIssue rules DescriptionQuality
            (Some (of_nat (List.length s))) (Some f) None]
         st (validateDescription rules (Some (JStr s)) ignore f st)
       /\ message (createIssue rules DescriptionQuality
                     (Some (of_nat (List.length s))) (Some f) None)
          = render (rule_message (rules DescriptionQuality))
                   (of_nat (List.length s))
     else yields ignore [] st
            (validateDescription rules (Some (JStr s)) ignore f st).
Proof.
  split; [apply yields_addIssue|]. split; [apply yields_addIssue|].
  unfold validateDescription. rewrite trim_length_0.
  destruct (blank s); [apply yields_addIssue|].
  change DESCRIPTION_MIN_QUALITY with 50.
  destruct (Nat.ltb (List.length s) 50); [|apply yields_nil].
  split; [apply yields_addIssue | apply createIssue_message, of_nat_nonempty].
Qed.

(** C6.  For handoffs: [{}, {label: "x"}] the handoffs validator yields,
    for index 0, handoff-label-required and handoff-agent-required, for
    index 1, handoff-agent-required alone, and no other issue. *)
Theorem validateHandoffs_two_incomplete ignore f st :
  yields ignore
    [createIssue rules HandoffLabelRequired (Some (lit "0")) (Some f) None;
     createIssue rules HandoffAgentRequired (Some (lit "0")) (Some f) None;
     createIssue rules HandoffAgentRequired (Some (lit "1")) (Some f) None]
    st
    (validateHandoffs rules
       (Some (JArr [JObj []; JObj [(lit "label", JStr (lit "x"))]]))
       ignore f st).
Proof.
  change (validateHandoffs rules _ ignore f st)
    with (addIssue rules HandoffAgentRequired (Some (lit "1")) ignore (Some f) None
            (addIssue rules HandoffAgentRequired (Some (lit "0")) ignore (Some f) None
               (addIssue rules HandoffLabelRequired (Some (lit "0")) ignore
                         (Some f) None st))).
  eapply (@yields_app ignore [_] [_; _]); [apply yields_addIssue|].
  eapply (@yields_app ignore [_] [_]); apply yields_addIssue.
Qed.

(** C7.  With infer-deprecated a warning in the rule table: when the
    infer key is present in the parsed document, whatever its value, the
    infer validator yields exactly one infer-deprecated warning (none if
    the caller ignores that rule); when the key is absent it yields
    nothing. *)
Theorem validateInfer_presence data ignore f st :
  rule_severity (rules InferDeprecated) = SevWarning ->
  (In (lit "infer") (Object_keys data) ->
   validateInfer rules (get data "infer") ignore f st
   = if includes (ruleName InferDeprecated) ignore then st
     else (fst st,
           snd st ++ [createIssue rules InferDeprecated None (Some f) None]))
  /\ (~ In (lit "infer") (Object_keys data) ->
      validateInfer rules (get data "infer") ignore f st = st).
Proof.
  intros Sev. rewrite infer_key_present. unfold validateInfer.
  destruct (get data "infer") as [v|]; split; intros H;
    try congruence; try (exfalso; apply H; discriminate).
  unfold addIssue, push. cbn [severity createIssue]. rewrite Sev. reflexivity.
Qed.

(** C10.  The body validator adds at most one issue, so never both
    body-empty and body-too-long.  For a body that is empty or white
    space only it adds body-empty (unless ignored) and no body-too-long,
    however many lines the body has; for any other body it adds no
    body-empty. *)
Theorem validateBody_exclusive body ignore f st :
  List.length (all_issues (validateBody rules body ignore f st))
    <= List.length (all_issues st) + 1
  /\ count BodyEmpty (validateBody rules body ignore f st)
     + count BodyTooLong (validateBody rules body ignore f st)
     <= count BodyEmpty st + count BodyTooLong st + 1
  /\ if blank body then
       count BodyTooLong (validateBody rules body ignore f st)
       = count BodyTooLong st
       /\ count BodyEmpty (validateBody rules body ignore f st)
          = count BodyEmpty st
            + (if includes (ruleName BodyEmpty) ignore then 0 else 1)
     else
       count BodyEmpty (validateBody rules body ignore f st)
       = count BodyEmpty st.
Proof.
  unfold validateBody. rewrite trim_length_0.
  replace (match body with [] => true | _ :: _ => false end || blank body)
    with (blank body) by (destruct body; reflexivity).
  destruct (blank body).
  - rewrite total_addIssue, !count_addIssue.
    destruct (includes (ruleName BodyEmpty) ignore);
      destruct (RuleId_eq_dec BodyEmpty BodyEmpty);
      destruct (RuleId_eq_dec BodyEmpty BodyTooLong);
      try congruence; repeat split; lia.
  - destruct (Nat.ltb BODY_MAX_LINES (List.length (split_lf body))).
    + rewrite total_addIssue, !count_addIssue.
      destruct (includes (ruleName BodyTooLong) ignore);
        destruct (RuleId_eq_dec BodyTooLong BodyTooLong);
        destruct (RuleId_eq_dec BodyTooLong BodyEmpty);
        try congruence; repeat split; lia.
    + repeat split; lia.
Qed.

End Properties.

(* ------------------------------------------------------------------ *)
(** * The claims at work on the sample files *)
(* ------------------------------------------------------------------ *)

Lemma ignored_rule_absent_once_parsed_witness :
  In (ruleName InferDeprecated)
     (ignoreRules (Sample.options ["infer-deprecated"%string] false "infer.agent.md"))
  /\ forall issue,
       In issue
          (errors (fst (Sample.validate (lit "infer.agent.md")
                          (Sample.options ["infer-deprecated"%string] false
                                          "infer.agent.md")
                          Sample.world))
           ++ warnings (fst (Sample.validate (lit "infer.agent.md")
                               (Sample.options ["infer-deprecated"%string] false
                                               "infer.agent.md")
                               Sample.world))) ->
       ruleId issue <> InferDeprecated.
Proof.
  assert (H : In (ruleName InferDeprecated)
                (ignoreRules (Sample.options ["infer-deprecated"%string] false
                                             "infer.agent.md")))
    by (left; reflexivity).
  split; [exact H|].
  exact (@ignored_rule_absent_once_parsed rules_json Sample.load
           Sample.path_resolve Sample.path_dirname Sample.path_basename
           (lit "infer.agent.md")
           (Sample.options ["infer-deprecated"%string] false "infer.agent.md")
           Sample.world InferDeprecated H).
Defined.

(** C1 as stated fails: with frontmatter-required and frontmatter-valid
    both ignored, a file without frontmatter is still reported under
    frontmatter-required and a file whose header is not YAML under
    frontmatter-valid. *)
Lemma ignored_parse_failure_still_reported :
  In (ruleName FrontmatterRequired)
     (map lit ["frontmatter-required"; "frontmatter-valid"]%string)
  /\ In (ruleName FrontmatterValid)
        (map lit ["frontmatter-required"; "frontmatter-valid"]%string)
  /\ map ruleId
       (errors (fst (Sample.validate (lit "plain.agent.md")
                       (Sample.options
                          ["frontmatter-required"; "frontmatter-valid"]%string
                          false "plain.agent.md")
                       Sample.world)))
     = [FrontmatterRequired]
  /\ map ruleId
       (errors (fst (Sample.validate (lit "broken.agent.md")
                       (Sample.options
                          ["frontmatter-required"; "frontmatter-valid"]%string
                          false "broken.agent.md")
                       Sample.world)))
     = [FrontmatterValid].
Proof.
  split; [left; reflexivity|].
  split; [right; left; reflexivity|].
  split; vm_compute; reflexivity.
Qed.

Lemma oversize_file_rejected_witness :
  statSync Sample.world (lit "huge.agent.md") = inr 614400%N
  /\ (MAX_FILE_SIZE_KB * 1024 < 614400)%N
  /\ parseAgentFile Sample.load Sample.world (lit "huge.agent.md")
     = ParseFailure
         {| error_message := lit "File too large (600KB). Maximum: 512KB";
            error_ruleId := None |}
  /\ List.length
       (errors (fst (Sample.validate (lit "huge.agent.md")
                       (Sample.options [] true "huge.agent.md") Sample.world)))
     = 1
  /\ warnings (fst (Sample.validate (lit "huge.agent.md")
                      (Sample.options [] true "huge.agent.md") Sample.world))
     = [].
Proof.
  destruct (@oversize_file_rejected rules_json Sample.load
              Sample.path_resolve Sample.path_dirname Sample.path_basename
              (fun _ => LoadThrows []) Sample.world Sample.world
              (lit "huge.agent.md") (Sample.options [] true "huge.agent.md")
              614400%N eq_refl eq_refl eq_refl)
    as (P & _ & E & W & _).
  split; [reflexivity|]. split; [reflexivity|].
  split; [exact P|]. split; [|exact W].
  unfold Sample.validate. rewrite E. reflexivity.
Defined.

Lemma validateHandoff_scalar_or_null_witness :
  scalar_or_null (Some (JNum (lit "3")))
  /\ validateHandoff rules_json (Some (JNum (lit "3"))) 4 []
                     (lit "a.agent.md") ([], [])
     = ([createIssue rules_json HandoffsFormat
           (Some (lit "Item at index 4 is not an object"))
           (Some (lit "a.agent.md")) None], []).
Proof.
  split; [exact I|].
  exact (@validateHandoff_scalar_or_null rules_json (Some (JNum (lit "3"))) 4 []
           (lit "a.agent.md") ([], []) I).
Defined.

(** C3 as stated fails on an array: the element [[]] of
    [handoffs: [[]]] passes the guard, since an array is an object, and
    is checked for a label and an agent; no handoffs-format issue is
    raised. *)
Lemma validateHandoff_array_is_checked :
  isArray (Some (JArr [])) = true
  /\ map ruleId
       (all_issues (validateHandoff rules_json (Some (JArr [])) 0 []
                                    (lit "a.agent.md") ([], [])))
     = [HandoffLabelRequired; HandoffAgentRequired].
Proof. split; reflexivity. Qed.

Lemma missing_frontmatter_sole_issue_witness :
  readFileSync Sample.world (lit "plain.agent.md")
  = inr (lit "Just some prose." ++ Sample.LF)
  /\ ~ delimited (lit "Just some prose." ++ Sample.LF)
  /\ map ruleId
       (errors (fst (Sample.validate (lit "plain.agent.md")
                       (Sample.options [] true "plain.agent.md") Sample.world)))
     = [FrontmatterRequired]
  /\ map message
       (errors (fst (Sample.validate (lit "plain.agent.md")
                       (Sample.options [] true "plain.agent.md") Sample.world)))
     = [lit "frontmatter-required: Agent file must contain YAML frontmatter (content between --- markers)"]
  /\ warnings (fst (Sample.validate (lit "plain.agent.md")
                      (Sample.options [] true "plain.agent.md") Sample.world))
     = [].
Proof.
  assert (D : ~ delimited (lit "Just some prose." ++ Sample.LF))
    by (apply extractFrontmatter_None; reflexivity).
  destruct (@missing_frontmatter_sole_issue rules_json Sample.load
              Sample.path_resolve Sample.path_dirname Sample.path_basename
              (lit "plain.agent.md") (Sample.options [] true "plain.agent.md")
              Sample.world (lit "Just some prose." ++ Sample.LF) eq_refl D)
    as (e & _ & E & R & W & _ & M).
  specialize (M eq_refl). subst e.
  split; [reflexivity|]. split; [exact D|].
  split; [exact R|]. split; [|exact W].
  unfold Sample.validate. rewrite E. vm_compute. reflexivity.
Defined.

(** C5 as stated fails on a string of three spaces: it is a string of
    fewer than 50 code units, and it yields description-format, not
    description-quality. *)
Lemma whitespace_description_not_quality :
  List.length (lit "   ") < 50
  /\ map ruleId
       (all_issues (validateDescription rules_json (Some (JStr (lit "   "))) []
                                        (lit "a.agent.md") ([], [])))
     = [DescriptionFormat].
Proof. split; [vm_compute; lia | reflexivity]. Qed.

Lemma validateInfer_presence_witness :
  rule_severity (rules_json InferDeprecated) = SevWarning
  /\ validateInfer rules_json
       (get (JObj [(lit "infer", JBool false)]) "infer") []
       (lit "infer.agent.md") ([], [])
     = ([], [createIssue rules_json InferDeprecated None
               (Some (lit "infer.agent.md")) None]).
Proof.
  split; [reflexivity|].
  exact (proj1 (@validateInfer_presence rules_json
                  (JObj [(lit "infer", JBool false)]) []
                  (lit "infer.agent.md") ([], []) eq_refl)
               (or_introl eq_refl)).
Defined.

(** A body of a thousand and one white lines is reported as empty, not
    as too long. *)
Example white_body_of_1001_lines :
  map ruleId
    (all_issues (validateBody rules_json (repeat 10%N 1000 ++ lit " ") []
                              (lit "a.agent.md") ([], [])))
  = [BodyEmpty]
  /\ List.length (split_lf (repeat 10%N 1000 ++ lit " ")) = 1001.
Proof. split; vm_compute; reflexivity. Qed.

(** The short description of the sample chat mode is reported with its
    length, ten, in the message. *)
Example short_description_message :
  map message
    (warnings (fst (Sample.validate (lit "planner.chatmode.md")
                      (Sample.options [] false "planner.chatmode.md")
                      Sample.world)))
  = [lit "description-quality: 10"].
Proof. vm_compute. reflexivity. Qed.

(* ------------------------------------------------------------------ *)
(** * The splitter, further *)
(* ------------------------------------------------------------------ *)

Lemma optional_split (c : N) (s : jsstring) :
  s = optional c s \/ s = c :: optional c s.
Proof.
  destruct s as [|x r]; simpl; [auto|].
  destruct (N.eqb x c) eqn:E; [|auto].
  apply N.eqb_eq in E. subst. auto.
Qed.

(** The header found is the shortest one: no closing delimiter begins
    before its end. *)
Lemma closing_shortest (s h rest : jsstring) :
  closing s = Some (h, rest) ->
  forall a nl r, line_break nl -> s = a ++ nl ++ lit "---" ++ r ->
                 List.length h <= List.length a.
Proof.
  revert h; induction s as [|c s IH]; intros h; [simpl; discriminate|].
  cbn [closing].
  destruct (match eol (c :: s) with
            | Some r => strip_prefix (lit "---") r
            | None => None
            end) as [rest'|] eqn:E.
  - intros H; inversion H; subst. intros; simpl; lia.
  - destruct (closing s) as [[h' rest']|] eqn:C; [|discriminate].
    intros H; inversion H; subst. intros a nl r Hnl Hs.
    destruct a as [|x a].
    + exfalso. rewrite app_nil_l in Hs. rewrite Hs in E.
      assert (El : eol (nl ++ lit "---" ++ r) = Some (lit "---" ++ r))
        by (apply eol_Some; exists nl; auto).
      rewrite El in E.
      assert (P : strip_prefix (lit "---") (lit "---" ++ r) = Some r)
        by (apply strip_prefix_Some; reflexivity).
      rewrite P in E. discriminate.
    + rewrite <- app_comm_cons in Hs. inversion Hs; subst.
      specialize (IH h' eq_refl a nl r Hnl eq_refl). simpl. lia.
Qed.

(** X1.  The splitter loses nothing but the delimiters: when it finds a
    header, the text is three dashes, a line break, the header, a line
    break, three dashes, at most one carriage return and line feed, and
    the body; when it finds none, the body is the whole text. *)
Theorem extractFrontmatter_lossless (content : jsstring) :
  match extractFrontmatter content with
  | (Some header, body) =>
      exists nl1 nl2 sep,
        line_break nl1 /\ line_break nl2
        /\ In sep [[]; [13%N]; [10%N]; [13%N; 10%N]]
        /\ content = lit "---" ++ nl1 ++ header ++ nl2 ++ lit "---" ++ sep ++ body
  | (None, body) => body = content
  end.
Proof.
  unfold extractFrontmatter.
  destruct (strip_prefix (lit "---") content) as [r|] eqn:P; [|reflexivity].
  destruct (eol r) as [r'|] eqn:E; [|reflexivity].
  destruct (closing r') as [[h rest]|] eqn:C; [|reflexivity].
  apply strip_prefix_Some in P. apply eol_Some in E.
  destruct E as (nl1 & H1 & ->).
  apply closing_Some in C. destruct C as (nl2 & H2 & ->).
  exists nl1, nl2.
  destruct (optional_split 13 rest) as [R | R];
    destruct (optional_split 10 (optional 13 rest)) as [Q | Q].
  - exists []. repeat split; auto; [simpl; auto|].
    rewrite <- Q, <- R. assumption.
  - exists [10%N]. repeat split; auto; [simpl; auto|].
    simpl. rewrite <- Q, <- R. assumption.
  - exists [13%N]. repeat split; auto; [simpl; auto|].
    simpl. rewrite <- Q, <- R. assumption.
  - exists [13%N; 10%N]. repeat split; auto; [simpl; auto 6|].
    simpl. rewrite <- Q, <- R. assumption.
Qed.

(** X2.  In the header the splitter returns no line feed is followed by
    three dashes: the first closing delimiter ends the header. *)
Theorem extractFrontmatter_shortest (content header body : jsstring) :
  extractFrontmatter content = (Some header, body) ->
  forall a b, header <> a ++ [10%N] ++ lit "---" ++ b.
Proof.
  unfold extractFrontmatter.
  destruct (strip_prefix (lit "---") content) as [r|] eqn:P; [|discriminate].
  destruct (eol r) as [r'|] eqn:E; [|discriminate].
  destruct (closing r') as [[h rest]|] eqn:C; [|discriminate].
  intros H; inversion H; subst. intros a b Hh.
  pose proof (closing_Some _ C) as (nl2 & H2 & Hr).
  assert (S : r' = a ++ [10%N] ++ lit "---" ++ (b ++ nl2 ++ lit "---" ++ rest)).
  { rewrite Hr, Hh. repeat rewrite <- app_assoc. reflexivity. }
  pose proof (@closing_shortest r' header rest C a [10%N] _
                (or_introl eq_refl) S) as L.
  rewrite Hh in L. repeat rewrite length_app in L. simpl in L. lia.
Qed.

(* ------------------------------------------------------------------ *)
(** * The link scanner *)
(* ------------------------------------------------------------------ *)

Lemma until_Some (stop : N) (s a b : jsstring) :
  until stop s = Some (a, b) -> s = a ++ stop :: b /\ ~ In stop a.
Proof.
  revert a; induction s as [|c s IH]; intros a; simpl; [discriminate|].
  destruct (N.eqb c stop) eqn:E.
  - apply N.eqb_eq in E. subst. intros H; inversion H; subst. simpl. auto.
  - apply N.eqb_neq in E.
    destruct (until stop s) as [[a' b']|]; [|discriminate].
    intros H; inversion H; subst.
    destruct (IH a' eq_refl) as (-> & Hn). split; [reflexivity|].
    simpl. intros [H1 | H1]; [congruence | auto].
Qed.

Lemma until_found (stop : N) (a b : jsstring) :
  ~ In stop a -> until stop (a ++ stop :: b) = Some (a, b).
Proof.
  induction a as [|c a IH]; simpl; intros H.
  - rewrite N.eqb_refl. reflexivity.
  - destruct (N.eqb c stop) eqn:E.
    + apply N.eqb_eq in E. exfalso. auto.
    + rewrite IH by auto. reflexivity.
Qed.

Lemma link_at_Some (s p rest : jsstring) :
  link_at s = Some (p, rest) ->
  p <> [] /\ ~ In 41%N p /\
  exists text, ~ In 93%N text
               /\ s = 91%N :: text ++ lit "](" ++ p ++ lit ")" ++ rest.
Proof.
  unfold link_at. destruct s as [|c r]; [discriminate|].
  destruct (N.eqb c 91) eqn:E; [|discriminate].
  apply N.eqb_eq in E. subst c.
  destruct (until 93 r) as [[text r1]|] eqn:U1; [|discriminate].
  destruct r1 as [|d r2]; [discriminate|].
  destruct (N.eqb d 40) eqn:E2; [|discriminate].
  apply N.eqb_eq in E2. subst d.
  destruct (until 41 r2) as [[p' r3]|] eqn:U2; [|discriminate].
  destruct p' as [|x p']; [discriminate|].
  intros H; inversion H; subst.
  apply until_Some in U1. destruct U1 as (-> & N1).
  apply until_Some in U2. destruct U2 as (-> & N2).
  split; [discriminate|]. split; [assumption|].
  exists text. split; [assumption|].
  simpl. repeat rewrite <- app_assoc. reflexivity.
Qed.

Lemma links_In (p : jsstring) :
  forall s skip, In p (links skip s) ->
    p <> [] /\ ~ In 41%N p /\
    exists pre post, s = pre ++ lit "](" ++ p ++ lit ")" ++ post.
Proof.
  induction s as [|c s IH]; intros skip; [simpl; tauto|].
  cbn [links]. 
  assert (Step : forall k, In p (links k s) ->
            p <> [] /\ ~ In 41%N p /\
            exists pre post, c :: s = pre ++ lit "](" ++ p ++ lit ")" ++ post).
  { intros k H. destruct (IH k H) as (A & B & pre & post & ->).
    split; [assumption|]. split; [assumption|]. exists (c :: pre), post.
    reflexivity. }
  destruct skip as [|k]; [|apply Step].
  destruct (link_at (c :: s)) as [[p0 rest]|] eqn:L; [|apply Step].
  intros [<- | H]; [|exact (Step _ H)].
  destruct (link_at_Some _ L) as (A & B & text & _ & E).
  split; [assumption|]. split; [assumption|].
  exists (91%N :: text), rest. rewrite E. reflexivity.
Qed.

(** X3.  Every link target the scanner reports is written in the body
    between "](" and ")", is not empty and holds no closing
    parenthesis. *)
Theorem links_sound (body p : jsstring) :
  In p (links 0 body) ->
  p <> [] /\ ~ In 41%N p /\
  exists pre post, body = pre ++ lit "](" ++ p ++ lit ")" ++ post.
Proof. apply links_In. Qed.

Lemma links_skip (a r : jsstring) :
  links (List.length a) (a ++ r) = links 0 r.
Proof. induction a as [|c a IH]; simpl; [reflexivity | exact IH]. Qed.

Lemma links_no_bracket (pre s : jsstring) :
  ~ In 91%N pre -> links 0 (pre ++ s) = links 0 s.
Proof.
  induction pre as [|c pre IH]; intros H; [reflexivity|].
  cbn [app links].
  assert (L : link_at (c :: pre ++ s) = None).
  { unfold link_at. destruct (N.eqb c 91) eqn:E; [|reflexivity].
    apply N.eqb_eq in E. exfalso. apply H. left. auto. }
  rewrite L. apply IH. intros X. apply H. right. exact X.
Qed.

(** X4.  A link [text](target) is found: when no opening square bracket
    comes before it, the text holds no closing square bracket and the
    target is not empty and holds no closing parenthesis, the target is
    the first one reported, and the scan goes on after the link. *)
Theorem links_found (pre text target post : jsstring) :
  ~ In 91%N pre -> ~ In 93%N text -> target <> [] -> ~ In 41%N target ->
  links 0 (pre ++ lit "[" ++ text ++ lit "](" ++ target ++ lit ")" ++ post)
  = target :: links 0 post.
Proof.
  intros Hpre Htext Hne Htarget.
  rewrite (@links_no_bracket pre _ Hpre).
  change (lit "[" ++ text ++ lit "](" ++ target ++ lit ")" ++ post)
    with (91%N :: (text ++ 93%N :: 40%N :: target ++ 41%N :: post)).
  cbn [links].
  assert (L : link_at (91%N :: (text ++ 93%N :: 40%N :: target ++ 41%N :: post))
              = Some (target, post)).
  { unfold link_at. rewrite N.eqb_refl.
    rewrite (@until_found 93%N text _ Htext). rewrite N.eqb_refl.
    rewrite (@until_found 41%N target _ Htarget).
    destruct target; [congruence | reflexivity]. }
  rewrite L. f_equal.
  replace (text ++ 93%N :: 40%N :: target ++ 41%N :: post)
    with ((text ++ 93%N :: 40%N :: target ++ [41%N]) ++ post)
    by (repeat (rewrite <- app_assoc; simpl); reflexivity).
  replace (List.length ((text ++ 93%N :: 40%N :: target ++ [41%N]) ++ post)
           - List.length post)
    with (List.length (text ++ 93%N :: 40%N :: target ++ [41%N]))
    by (rewrite (length_app _ post); lia).
  apply links_skip.
Qed.

(* ------------------------------------------------------------------ *)
(** * Message rendering *)
(* ------------------------------------------------------------------ *)

Lemma find_first_none (p s : jsstring) :
  ~ In 123%N s -> find_first (123%N :: p) s = None.
Proof.
  induction s as [|c s IH]; intros H; [reflexivity|].
  cbn [find_first strip_prefix].
  destruct (N.eqb 123 c) eqn:E.
  - apply N.eqb_eq in E. exfalso. apply H. left. auto.
  - rewrite IH; [reflexivity|]. intros X. apply H. right. exact X.
Qed.

Lemma find_first_later (p pre s : jsstring) :
  ~ In 123%N pre ->
  find_first (123%N :: p) (pre ++ s)
  = match find_first (123%N :: p) s with
    | Some (before, after) => Some (pre ++ before, after)
    | None => None
    end.
Proof.
  induction pre as [|c pre IH]; intros H.
  - simpl. destruct (find_first (123%N :: p) s) as [[? ?]|]; reflexivity.
  - cbn [app find_first strip_prefix].
    destruct (N.eqb 123 c) eqn:E.
    + apply N.eqb_eq in E. exfalso. apply H. left. auto.
    + rewrite IH by (intros X; apply H; right; exact X).
      destruct (find_first (123%N :: p) s) as [[? ?]|]; reflexivity.
Qed.

Lemma getSubstitution_plain (matched before after d : jsstring) :
  ~ In 36%N d -> getSubstitution matched before after d = d.
Proof.
  induction d as [|c d IH]; intros H; [reflexivity|].
  cbn [getSubstitution].
  destruct (N.eqb c 36) eqn:E.
  - apply N.eqb_eq in E. exfalso. apply H. left. auto.
  - rewrite IH; [reflexivity|]. intros X. apply H. right. exact X.
Qed.

Lemma replace_none (p d s : jsstring) :
  ~ In 123%N s -> replace (123%N :: p) d s = s.
Proof. intros H. unfold replace. rewrite find_first_none by assumption. reflexivity. Qed.

Lemma replace_miss (p t pre post d : jsstring) :
  ~ In 123%N pre -> ~ In 123%N (t ++ post) ->
  strip_prefix p (t ++ post) = None ->
  replace (123%N :: p) d (pre ++ (123%N :: t) ++ post)
  = pre ++ (123%N :: t) ++ post.
Proof.
  intros Hpre Ht Hp. unfold replace.
  rewrite find_first_later by assumption.
  cbn [app find_first strip_prefix]. rewrite N.eqb_refl, Hp.
  rewrite find_first_none by assumption. reflexivity.
Qed.

Lemma replace_hit (p pre post d : jsstring) :
  ~ In 123%N pre -> ~ In 36%N d ->
  replace (123%N :: p) d (pre ++ (123%N :: p) ++ post) = pre ++ d ++ post.
Proof.
  intros Hpre Hd. unfold replace.
  rewrite find_first_later by assumption.
  assert (S : strip_prefix p (p ++ post) = Some post)
    by (apply strip_prefix_Some; reflexivity).
  cbn [app find_first strip_prefix]. rewrite N.eqb_refl, S.
  rewrite getSubstitution_plain by assumption.
  rewrite app_nil_r. reflexivity.
Qed.

Lemma no_brace_app (a b : jsstring) :
  ~ In 123%N a -> ~ In 123%N b -> ~ In 123%N (a ++ b).
Proof. intros A B H. apply in_app_or in H. destruct H; auto. Qed.

Ltac no_brace :=
  repeat apply no_brace_app; try assumption;
  let X := fresh in
  intros X; cbn in X;
  repeat (destruct X as [X | X]; [discriminate X|]); try contradiction; auto.

Lemma render_detail_token (tok pre post d : jsstring) :
  In tok detail_tokens ->
  ~ In 123%N pre -> ~ In 123%N post -> ~ In 123%N d -> ~ In 36%N d ->
  render (pre ++ tok ++ post) d = pre ++ d ++ post.
Proof.
  intros T Hpre Hpost Hd Hs.
  assert (Hafter : ~ In 123%N (pre ++ d ++ post)) by no_brace.
  unfold detail_tokens in T. cbn [map In] in T. unfold render.
  change (lit "{detail}") with (123%N :: lit "detail}") in *.
  change (lit "{length}") with (123%N :: lit "length}") in *.
  change (lit "{lines}") with (123%N :: lit "lines}") in *.
  change (lit "{value}") with (123%N :: lit "value}") in *.
  change (lit "{field}") with (123%N :: lit "field}") in *.
  change (lit "{path}") with (123%N :: lit "path}") in *.
  change (lit "{index}") with (123%N :: lit "index}") in *.
  change (lit "{knownFields}") with (123%N :: lit "knownFields}") in *.
  repeat (destruct T as [<- | T]; [|]); [..|contradiction];
    repeat first
      [ rewrite (@replace_none _ _ (pre ++ d ++ post)) by assumption
      | rewrite replace_hit by assumption
      | rewrite replace_miss by (first [assumption | reflexivity | no_brace]) ];
    reflexivity.
Qed.

Section Further.

Variable rules : RuleId -> RuleDefinition.
Variable load : jsstring -> LoadResult.
Variable path_resolve : jsstring -> jsstring -> jsstring.
Variable path_dirname : jsstring -> jsstring.
Variable path_basename : jsstring -> jsstring.
Variable path_resolve1 : jsstring -> jsstring.
Variable path_join : list jsstring -> jsstring.
Variable getInput : jsstring -> jsstring.

(** X5.  When a rule's template holds one detail token and no other
    brace, and the detail holds no brace and no dollar sign, the message
    is the template with the token replaced by the detail, verbatim. *)
Theorem createIssue_renders_detail id tok pre post d f l :
  rule_message (rules id) = pre ++ tok ++ post ->
  In tok detail_tokens ->
  ~ In 123%N pre -> ~ In 123%N post ->
  d <> [] -> ~ In 123%N d -> ~ In 36%N d ->
  message (createIssue rules id (Some d) f l) = pre ++ d ++ post.
Proof using Type.
  intros M T Hpre Hpost Hne Hd Hs.
  destruct d as [|c d]; [congruence|].
  cbn [createIssue message]. rewrite M.
  apply render_detail_token; assumption.
Qed.

(** X6.  A template without a brace is the message as it stands,
    whatever the detail. *)
Theorem createIssue_plain_template id detail f l :
  ~ In 123%N (rule_message (rules id)) ->
  message (createIssue rules id detail f l) = rule_message (rules id).
Proof using Type.
  intros H. destruct detail as [[|c d]|]; try reflexivity.
  cbn [createIssue message]. unfold render.
  change (lit "{detail}") with (123%N :: lit "detail}").
  change (lit "{length}") with (123%N :: lit "length}").
  change (lit "{lines}") with (123%N :: lit "lines}").
  change (lit "{value}") with (123%N :: lit "value}").
  change (lit "{field}") with (123%N :: lit "field}").
  change (lit "{path}") with (123%N :: lit "path}").
  change (lit "{index}") with (123%N :: lit "index}").
  change (lit "{knownFields}") with (123%N :: lit "knownFields}").
  repeat rewrite (@replace_none _ _ (rule_message (rules id))) by assumption.
  reflexivity.
Qed.

(* ------------------------------------------------------------------ *)
(** * The validators, further *)
(* ------------------------------------------------------------------ *)

Lemma appends_refl f ids st : appends rules f ids st st.
Proof using Type.
  exists [], []. rewrite !app_nil_r. destruct st.
  repeat split; constructor.
Qed.

Lemma appends_trans f ids st1 st2 st3 :
  appends rules f ids st1 st2 -> appends rules f ids st2 st3 ->
  appends rules f ids st1 st3.
Proof using Type.
  intros (e1 & w1 & -> & E1 & W1) (e2 & w2 & -> & E2 & W2). cbn [fst snd].
  exists (e1 ++ e2), (w1 ++ w2). rewrite !app_assoc.
  repeat split; apply Forall_app; split; assumption.
Qed.

Lemma appends_weaken f ids ids' st st' :
  incl ids ids' -> appends rules f ids st st' -> appends rules f ids' st st'.
Proof using Type.
  intros I (e & w & -> & E & W). exists e, w.
  repeat split; (eapply Forall_impl; [|eassumption]);
    intros a (A & B & C); (split; [assumption|]); (split; [assumption|]);
    apply I, C.
Qed.

Lemma appends_add f ids id detail ignore st st1 :
  In id ids -> appends rules f ids st st1 ->
  appends rules f ids st (addIssue rules id detail ignore (Some f) None st1).
Proof using Type.
  intros Hid (e & w & -> & E & W). unfold addIssue.
  destruct (includes (ruleName id) ignore); [exists e, w; auto|].
  unfold push. cbn [fst snd].
  destruct (severity (createIssue rules id detail (Some f) None)) eqn:S.
  - exists (e ++ [createIssue rules id detail (Some f) None]), w.
    rewrite app_assoc. repeat split; try assumption.
    apply Forall_app. split; [assumption|].
    constructor; [|constructor].
    split; [exact S|]. split; [repeat split | exact Hid].
  - exists e, (w ++ [createIssue rules id detail (Some f) None]).
    rewrite app_assoc. repeat split; try assumption.
    apply Forall_app. split; [assumption|].
    constructor; [|constructor].
    split; [exact S|]. split; [repeat split | exact Hid].
Qed.

Ltac rule_listed := cbn; repeat (first [left; reflexivity | right]).

Ltac append_cases :=
  cbv zeta;
  repeat first
    [ apply appends_refl
    | apply appends_add; [rule_listed|]
    | match goal with
      | |- appends _ _ _ _ (if ?b then _ else _) => destruct b
      | |- appends _ _ _ _ (match ?x with _ => _ end) => destruct x
      end ].

Lemma validateDescription_appends v ignore f st :
  appends rules f [DescriptionFormat; DescriptionQuality] st
          (validateDescription rules v ignore f st).
Proof using Type. unfold validateDescription. append_cases. Qed.

Lemma validateName_appends v ignore f st :
  appends rules f [NameFormat] st (validateName rules v ignore f st).
Proof using Type. unfold validateName. append_cases. Qed.

Lemma validateArgumentHint_appends v ignore f st :
  appends rules f [ArgumentHintFormat] st
          (validateArgumentHint rules v ignore f st).
Proof using Type. unfold validateArgumentHint. append_cases. Qed.

Lemma validateItems_appends id items ignore f :
  forall i st,
    appends rules f [id] st (validateItems rules id items i ignore f st).
Proof using Type.
  induction items as [|x items IH]; intros i st; simpl.
  - apply appends_refl.
  - eapply appends_trans; [|apply IH]. append_cases.
Qed.

Lemma validateTools_appends v ignore f st :
  appends rules f [ToolsFormat] st (validateTools rules v ignore f st).
Proof using Type.
  unfold validateTools.
  destruct v as [[]|]; first [apply validateItems_appends | append_cases].
Qed.

Lemma validateAgents_appends v ignore f st :
  appends rules f [AgentsFormat] st (validateAgents rules v ignore f st).
Proof using Type.
  unfold validateAgents.
  destruct v as [[]|]; first [apply validateItems_appends | append_cases].
Qed.

Lemma validateModel_appends v ignore f st :
  appends rules f [ModelFormat] st (validateModel rules v ignore f st).
Proof using Type.
  unfold validateModel.
  destruct v as [[]|]; first [apply validateItems_appends | append_cases].
Qed.

Lemma validateBooleanField_appends v id ignore f st :
  appends rules f [id] st (validateBooleanField rules v id ignore f st).
Proof using Type. unfold validateBooleanField. append_cases. Qed.

Lemma validateTarget_appends v ignore f st :
  appends rules f [TargetValid] st (validateTarget rules v ignore f st).
Proof using Type.
  unfold validateTarget. destruct (is_nullish v); [apply appends_refl|].
  match goal with |- appends _ _ _ _ (if ?b then _ else _) => destruct b end;
    append_cases.
Qed.

Lemma validateMcpServers_appends v ignore f st :
  appends rules f [McpServersFormat] st
          (validateMcpServers rules v ignore f st).
Proof using Type. unfold validateMcpServers. append_cases. Qed.

Lemma validateHandoff_appends h i ignore f st :
  appends rules f
          [HandoffsFormat; HandoffLabelRequired; HandoffAgentRequired;
           HandoffSendFormat; HandoffModelFormat]
          st (validateHandoff rules h i ignore f st).
Proof using Type.
  unfold validateHandoff.
  destruct (non_null_object h) as [o|]; append_cases.
Qed.

Lemma validateHandoffItems_appends items ignore f :
  forall i st,
    appends rules f
            [HandoffsFormat; HandoffLabelRequired; HandoffAgentRequired;
             HandoffSendFormat; HandoffModelFormat]
            st (validateHandoffItems rules items i ignore f st).
Proof using Type.
  induction items as [|x items IH]; intros i st; simpl.
  - apply appends_refl.
  - eapply appends_trans; [apply validateHandoff_appends | apply IH].
Qed.

Lemma validateHandoffs_appends v ignore f st :
  appends rules f
          [HandoffsFormat; HandoffLabelRequired; HandoffAgentRequired;
           HandoffSendFormat; HandoffModelFormat]
          st (validateHandoffs rules v ignore f st).
Proof using Type.
  unfold validateHandoffs.
  destruct v as [[]|]; first [apply validateHandoffItems_appends | append_cases].
Qed.

Lemma validateInfer_appends v ignore f st :
  appends rules f [InferDeprecated] st (validateInfer rules v ignore f st).
Proof using Type. unfold validateInfer. append_cases. Qed.

Lemma fold_appends (A : Type) f ids (step : Issues -> A -> Issues) :
  (forall acc x, appends rules f ids acc (step acc x)) ->
  forall xs st, appends rules f ids st (fold_left step xs st).
Proof using Type.
  intros Hstep xs. induction xs as [|x xs IH]; intros st; simpl.
  - apply appends_refl.
  - eapply appends_trans; [apply Hstep | apply IH].
Qed.

Lemma validateUnknownFields_appends data ignore f st :
  appends rules f [UnknownField] st
          (validateUnknownFields rules data ignore f st).
Proof using Type.
  unfold validateUnknownFields. apply fold_appends. intros; append_cases.
Qed.

Lemma validateBody_appends body ignore f st :
  appends rules f [BodyEmpty; BodyTooLong] st
          (validateBody rules body ignore f st).
Proof using Type. unfold validateBody. append_cases. Qed.

Lemma validateFileReferences_appends w body dir ignore f st :
  appends rules f [ReferenceNotFound] st
          (validateFileReferences rules path_resolve w body dir ignore f st).
Proof using Type.
  unfold validateFileReferences. apply fold_appends. intros; append_cases.
Qed.

(** X7.  Every validator only appends to the two lists: what was
    collected before stays, in order.  Each issue it appends is under
    one of its own rules (a malformed field is never reported under
    another field's rule), is stamped with the file and the severity of
    its rule, and goes to the error list exactly when that severity is
    error. *)
Theorem validators_append_own_rules (v : unknown) (data : value)
    (body dir : jsstring) (id : RuleId) (w : World) ignore f st :
  appends rules f [DescriptionFormat; DescriptionQuality] st
          (validateDescription rules v ignore f st)
  /\ appends rules f [NameFormat] st (validateName rules v ignore f st)
  /\ appends rules f [ArgumentHintFormat] st
             (validateArgumentHint rules v ignore f st)
  /\ appends rules f [ToolsFormat] st (validateTools rules v ignore f st)
  /\ appends rules f [AgentsFormat] st (validateAgents rules v ignore f st)
  /\ appends rules f [ModelFormat] st (validateModel rules v ignore f st)
  /\ appends rules f [id] st (validateBooleanField rules v id ignore f st)
  /\ appends rules f [TargetValid] st (validateTarget rules v ignore f st)
  /\ appends rules f [McpServersFormat] st
             (validateMcpServers rules v ignore f st)
  /\ appends rules f
             [HandoffsFormat; HandoffLabelRequired; HandoffAgentRequired;
              HandoffSendFormat; HandoffModelFormat]
             st (validateHandoffs rules v ignore f st)
  /\ appends rules f [InferDeprecated] st (validateInfer rules v ignore f st)
  /\ appends rules f [UnknownField] st
             (validateUnknownFields rules data ignore f st)
  /\ appends rules f [BodyEmpty; BodyTooLong] st
             (validateBody rules body ignore f st)
  /\ appends rules f [ReferenceNotFound] st
             (validateFileReferences rules path_resolve w body dir ignore f st).
Proof using Type.
  repeat split;
    auto using validateDescription_appends, validateName_appends,
      validateArgumentHint_appends, validateTools_appends,
      validateAgents_appends, validateModel_appends,
      validateBooleanField_appends, validateTarget_appends,
      validateMcpServers_appends, validateHandoffs_appends,
      validateInfer_appends, validateUnknownFields_appends,
      validateBody_appends, validateFileReferences_appends.
Qed.

Lemma validateItems_yields id items ignore f :
  forall i st,
    yields ignore
      (map (fun k => createIssue rules id (Some (item_detail k)) (Some f) None)
           (non_string_indices items i))
      st (validateItems rules id items i ignore f st).
Proof using Type.
  induction items as [|x items IH]; intros i st; cbn [validateItems non_string_indices].
  - apply yields_nil.
  - destruct (is_string (Some x)); cbn [negb map].
    + apply IH.
    + eapply (@yields_app ignore [_]); [apply yields_addIssue | apply IH].
Qed.

(** X8.  For an array, the tools, agents and model validators yield one
    issue for each item that is not a string, in ascending order of
    index, each naming its index, and nothing for the strings. *)
Theorem array_items_reported (items : list value) ignore f st :
  yields ignore
    (map (fun k => createIssue rules ToolsFormat (Some (item_detail k)) (Some f) None)
         (non_string_indices items 0))
    st (validateTools rules (Some (JArr items)) ignore f st)
  /\ yields ignore
       (map (fun k => createIssue rules AgentsFormat (Some (item_detail k)) (Some f) None)
            (non_string_indices items 0))
       st (validateAgents rules (Some (JArr items)) ignore f st)
  /\ yields ignore
       (map (fun k => createIssue rules ModelFormat (Some (item_detail k)) (Some f) None)
            (non_string_indices items 0))
       st (validateModel rules (Some (JArr items)) ignore f st).
Proof using Type. repeat split; apply validateItems_yields. Qed.

Lemma fold_yields (A : Type) ignore (c : A -> bool) (mk : A -> ValidationIssue)
    (step : Issues -> A -> Issues) :
  (forall acc x, yields ignore (if c x then [mk x] else []) acc (step acc x)) ->
  forall xs st, yields ignore (map mk (filter c xs)) st (fold_left step xs st).
Proof using Type.
  intros Hstep xs. induction xs as [|x xs IH]; intros st; cbn [filter fold_left].
  - apply yields_nil.
  - specialize (Hstep st x). destruct (c x); cbn [map].
    + eapply (@yields_app ignore [_]); [exact Hstep | apply IH].
    + unfold yields in Hstep. cbn in Hstep. rewrite Hstep. apply IH.
Qed.

(** X9.  The unknown-field check yields one unknown-field issue for each
    key of the document that is not a known field, in the order of the
    keys, naming the key, and nothing for the known fields. *)
Theorem validateUnknownFields_exact (data : value) ignore f st :
  yields ignore
    (map (fun key => createIssue rules UnknownField (Some key) (Some f) None)
         (filter (fun key => negb (includes key KNOWN_FIELDS)) (Object_keys data)))
    st (validateUnknownFields rules data ignore f st).
Proof using Type.
  unfold validateUnknownFields. apply fold_yields.
  intros acc key. destruct (negb (includes key KNOWN_FIELDS));
    [apply yields_addIssue | apply yields_nil].
Qed.

(** X10.  The reference validator yields one reference-not-found issue
    for each link target that is neither an absolute URL nor an anchor
    and does not exist once resolved against the file's directory, in
    the order of the links; it never looks up a URL or an anchor. *)
Theorem validateFileReferences_exact (w : World) (body dir : jsstring)
    ignore f st :
  yields ignore
    (map (fun p => createIssue rules ReferenceNotFound (Some p) (Some f) None)
         (filter (fun p => negb (external p)
                           && negb (existsSync w (path_resolve dir p)))
                 (links 0 body)))
    st (validateFileReferences rules path_resolve w body dir ignore f st).
Proof using Type.
  unfold validateFileReferences. apply fold_yields.
  intros acc p. unfold external.
  destruct (startsWith (lit "http://") p || startsWith (lit "https://") p
            || startsWith (lit "#") p); cbn [negb andb];
    [apply yields_nil|].
  destruct (negb (existsSync w (path_resolve dir p)));
    [apply yields_addIssue | apply yields_nil].
Qed.

(* ------------------------------------------------------------------ *)
(** * The orchestrator, further *)
(* ------------------------------------------------------------------ *)

Local Abbreviation validate :=
  (validateAgentFile rules load path_resolve path_dirname path_basename).

(** The validators of [validateAgentFile] after the first, applied in
    its order to what the description validator left. *)
Local Abbreviation after_description data body options path w st0 :=
  ((if validateReferences options
    then validateFileReferences rules path_resolve w body (path_dirname path)
                                (ignoreRules options) path
    else fun st : Issues => st)
     (validateBody rules body (ignoreRules options) path
     (validateUnknownFields rules data (ignoreRules options) path
     (validateInfer rules (get data "infer") (ignoreRules options) path
     (validateHandoffs rules (get data "handoffs") (ignoreRules options) path
     (validateMcpServers rules (get data "mcp-servers") (ignoreRules options) path
     (validateTarget rules (get data "target") (ignoreRules options) path
     (validateBooleanField rules (get data "disable-model-invocation")
        DisableModelInvocationFormat (ignoreRules options) path
     (validateBooleanField rules (get data "user-invokable")
        UserInvokableFormat (ignoreRules options) path
     (validateModel rules (get data "model") (ignoreRules options) path
     (validateAgents rules (get data "agents") (ignoreRules options) path
     (validateTools rules (get data "tools") (ignoreRules options) path
     (validateArgumentHint rules (get data "argument-hint")
        (ignoreRules options) path
     (validateName rules (get data "name") (ignoreRules options) path
        st0)))))))))))))).

Local Abbreviation checked data body options path w :=
  (after_description data body options path w
     (validateDescription rules (get data "description")
                          (ignoreRules options) path ([], []))).

Lemma validateAgentFile_success_eq path options w data body :
  parseAgentFile load w path = ParseSuccess data body ->
  fst (validate path options w)
  = {| result_file := path;
       valid := Nat.eqb (List.length (fst (checked data body options path w))) 0;
       errors := fst (checked data body options path w);
       warnings := snd (checked data body options path w) |}.
Proof using Type.
  intros H. unfold validateAgentFile.
  set (w1 := if endsWith (lit ".chatmode.md") path then _ else w).
  assert (S1 : same_files w w1)
    by (subst w1; destruct (endsWith _ path);
        [apply same_files_info | repeat split]).
  rewrite <- (parseAgentFile_same_files load path S1), H.
  cbv zeta. destruct (validateReferences options); cbn [fst]; [|reflexivity].
  rewrite (validateFileReferences_same_files rules path_resolve _ _ _ _ _ S1).
  reflexivity.
Qed.

Ltac incl_rules :=
  let x := fresh in let Hx := fresh in
  intros x Hx; cbn in Hx;
  repeat (destruct Hx as [<- | Hx]; [rule_listed|]); contradiction.

Ltac peel lemma :=
  eapply appends_trans; [|eapply appends_weaken; [|apply lemma]; incl_rules].

Ltac peel_fields :=
  peel validateBody_appends; peel validateUnknownFields_appends;
  peel validateInfer_appends; peel validateHandoffs_appends;
  peel validateMcpServers_appends; peel validateTarget_appends;
  peel validateBooleanField_appends; peel validateBooleanField_appends;
  peel validateModel_appends; peel validateAgents_appends;
  peel validateTools_appends; peel validateArgumentHint_appends;
  eapply appends_weaken; [|apply validateName_appends]; incl_rules.

Lemma after_description_appends data body options path w st0 :
  appends rules path engine_rules st0
          (after_description data body options path w st0).
Proof using Type.
  destruct (validateReferences options); cbv beta.
  - peel validateFileReferences_appends. peel_fields.
  - peel_fields.
Qed.

Lemma checked_appends data body options path w :
  appends rules path engine_rules ([], []) (checked data body options path w).
Proof using Type.
  eapply appends_trans; [|apply after_description_appends].
  eapply appends_weaken; [|apply validateDescription_appends]. incl_rules.
Qed.

Lemma parse_failure_rule w path e :
  parseAgentFile load w path = ParseFailure e ->
  failure_rule e = FrontmatterRequired \/ failure_rule e = FrontmatterValid.
Proof using Type.
  unfold parseAgentFile.
  destruct (statSync w path); [intros H; inversion H; auto|].
  destruct (N.ltb _ _); [intros H; inversion H; auto|].
  destruct (readFileSync w path); [intros H; inversion H; auto|].
  destruct (extractFrontmatter _) as [[h|] b]; [|intros H; inversion H; auto].
  destruct (load h); [intros H; inversion H; auto|].
  destruct (non_null_object doc); intros H; inversion H; auto.
Qed.

(** X11.  In the result of a file that parses, the error list holds
    issues of severity error only and the warning list issues of
    severity warning only; each is stamped with the file and its rule's
    severity, and is under one of the field, body and reference rules. *)
Theorem parsed_result_routed path options w data body :
  parseAgentFile load w path = ParseSuccess data body ->
  Forall (fun i => severity i = SevError /\ stamped rules path i
                   /\ In (ruleId i) engine_rules)
         (errors (fst (validate path options w)))
  /\ Forall (fun i => severity i = SevWarning /\ stamped rules path i
                      /\ In (ruleId i) engine_rules)
            (warnings (fst (validate path options w))).
Proof using Type.
  intros P. rewrite (validateAgentFile_success_eq path options w P).
  destruct (checked_appends data body options path w) as (e & wn & -> & E & W).
  cbn [errors warnings fst snd app]. auto.
Qed.

(** X12.  In every result each issue is stamped with the file and the
    severity of its rule.  An issue under frontmatter-required or
    frontmatter-valid is the single issue of its result; every other
    issue is under a field, body or reference rule, so file-extension
    never appears in a file's result. *)
Theorem result_rule_partition path options w issue :
  In issue (errors (fst (validate path options w))
            ++ warnings (fst (validate path options w))) ->
  stamped rules path issue
  /\ (In (ruleId issue) engine_rules
      \/ ((ruleId issue = FrontmatterRequired \/ ruleId issue = FrontmatterValid)
          /\ errors (fst (validate path options w)) = [issue]
          /\ warnings (fst (validate path options w)) = [])).
Proof using Type.
  destruct (parseAgentFile load w path) as [data body | e] eqn:P.
  - destruct (parsed_result_routed path options w P) as (E & W).
    intros H. apply in_app_or in H.
    rewrite Forall_forall in E, W.
    destruct H as [H | H]; [apply E in H | apply W in H];
      destruct H as (_ & S & I); auto.
  - rewrite (validateAgentFile_failure rules load path_resolve path_dirname
               path_basename path options w P).
    cbn [errors warnings app In]. intros [<- | []].
    split; [repeat split|]. right.
    rewrite createIssue_ruleId. split; [|auto].
    exact (parse_failure_rule w path P).
Qed.

Lemma validateItems_strings id items ignore f :
  forallb (fun y => is_string (Some y)) items = true ->
  forall i st, validateItems rules id items i ignore f st = st.
Proof using Type.
  induction items as [|x items IH]; intros H i st; [reflexivity|].
  cbn [forallb] in H. apply andb_true_iff in H. destruct H as (Hx & H).
  cbn [validateItems]. rewrite Hx. cbn [negb]. apply IH, H.
Qed.

(** A complete handoff passes every check of the element validator. *)
Lemma validateHandoff_complete h i ignore f st :
  complete_handoff h = true ->
  validateHandoff rules (Some h) i ignore f st = st.
Proof using Type.
  unfold complete_handoff, validateHandoff.
  destruct (non_null_object (Some h)) as [o|]; [|discriminate].
  intros H. repeat (apply andb_true_iff in H; destruct H as (H & ?)).
  cbv zeta.
  repeat match goal with
         | E : ?b = true |- context [negb ?b] => rewrite E
         end.
  cbn [negb orb].
  destruct (get o "send") as [s|]; destruct (get o "model") as [m|];
    repeat match goal with
           | E : ?b = true |- context [negb ?b] => rewrite E
           end; reflexivity.
Qed.

Lemma validateHandoffItems_complete items ignore f :
  forallb complete_handoff items = true ->
  forall i st, validateHandoffItems rules items i ignore f st = st.
Proof using Type.
  induction items as [|x items IH]; intros H i st; [reflexivity|].
  cbn [forallb] in H. apply andb_true_iff in H. destruct H as (Hx & H).
  cbn [validateHandoffItems]. rewrite (validateHandoff_complete _ _ _ _ _ Hx).
  apply IH, H.
Qed.

Lemma validateUnknownFields_known data ignore f st :
  forallb (fun key => includes key KNOWN_FIELDS) (Object_keys data) = true ->
  validateUnknownFields rules data ignore f st = st.
Proof using Type.
  unfold validateUnknownFields. revert st.
  induction (Object_keys data) as [|k ks IH]; intros st H; [reflexivity|].
  cbn [forallb] in H. apply andb_true_iff in H. destruct H as (Hk & H).
  cbn [fold_left]. rewrite Hk. cbn [negb]. apply IH, H.
Qed.

Lemma validateFileReferences_resolved w body dir ignore f st :
  forallb (fun p => external p || existsSync w (path_resolve dir p))
          (links 0 body) = true ->
  validateFileReferences rules path_resolve w body dir ignore f st = st.
Proof using Type.
  intros H.
  assert (E : filter (fun p => negb (external p)
                               && negb (existsSync w (path_resolve dir p)))
                     (links 0 body) = []).
  { induction (links 0 body) as [|p ps IH]; [reflexivity|].
    cbn [forallb] in H. apply andb_true_iff in H. destruct H as (Hp & H).
    cbn [filter]. rewrite <- negb_orb, Hp. cbn [negb]. apply IH, H. }
  pose proof (validateFileReferences_exact w body dir ignore f st) as Y.
  rewrite E in Y. exact Y.
Qed.

(** X13.  A file that parses into a well-formed document, with a body
    that is not blank and has at most 1000 lines, and, when references
    are checked, with every link external or resolving to something that
    exists, is valid with no error and no warning, whatever the ignore
    list. *)
Theorem well_formed_file_is_clean path options w data body :
  parseAgentFile load w path = ParseSuccess data body ->
  well_formed data = true ->
  blank body = false ->
  List.length (split_lf body) <= BODY_MAX_LINES ->
  (validateReferences options = true ->
   forallb (fun p => external p
                     || existsSync w (path_resolve (path_dirname path) p))
           (links 0 body) = true) ->
  errors (fst (validate path options w)) = []
  /\ warnings (fst (validate path options w)) = []
  /\ valid (fst (validate path options w)) = true.
Proof using Type.
  intros P WF B L R.
  rewrite (validateAgentFile_success_eq path options w P).
  assert (C : checked data body options path w = ([], [])).
  { unfold well_formed in WF.
    repeat (apply andb_true_iff in WF; destruct WF as (WF & ?)).
    assert (D : validateDescription rules (get data "description")
                  (ignoreRules options) path ([], []) = ([], [])).
    { unfold validateDescription.
      destruct (get data "description") as [[| | |d| | |]|]; try discriminate.
      apply andb_true_iff in WF. destruct WF as (W1 & W2).
      rewrite trim_length_0. apply negb_true_iff in W1. rewrite W1.
      apply Nat.leb_le in W2. change DESCRIPTION_MIN_QUALITY with 50.
      destruct (Nat.ltb_spec (List.length d) 50); [lia | reflexivity]. }
    rewrite D.
    assert (N : validateName rules (get data "name") (ignoreRules options) path
                  ([], []) = ([], [])).
    { unfold validateName. destruct (get data "name") as [[]|];
        try reflexivity; discriminate. }
    rewrite N.
    assert (A : validateArgumentHint rules (get data "argument-hint")
                  (ignoreRules options) path ([], []) = ([], [])).
    { unfold validateArgumentHint. destruct (get data "argument-hint") as [[]|];
        try reflexivity; discriminate. }
    rewrite A.
    assert (T : validateTools rules (get data "tools") (ignoreRules options) path
                  ([], []) = ([], [])).
    { unfold validateTools. destruct (get data "tools") as [[]|];
        try reflexivity; try discriminate.
      apply validateItems_strings. assumption. }
    rewrite T.
    assert (G : validateAgents rules (get data "agents") (ignoreRules options)
                  path ([], []) = ([], [])).
    { unfold validateAgents. destruct (get data "agents") as [[]|];
        try reflexivity; try discriminate.
      - match goal with E : absent_or _ _ = true |- _ =>
          cbn -[lit JsString.eqb] in E; rewrite E end. reflexivity.
      - apply validateItems_strings.
        match goal with E : absent_or _ _ = true |- _ =>
          cbn -[lit JsString.eqb] in E; rewrite orb_false_r in E; exact E end. }
    rewrite G.
    assert (M : validateModel rules (get data "model") (ignoreRules options) path
                  ([], []) = ([], [])).
    { unfold validateModel. destruct (get data "model") as [[]|];
        try reflexivity; try discriminate.
      apply validateItems_strings. assumption. }
    rewrite M.
    assert (U : validateBooleanField rules (get data "user-invokable")
                  UserInvokableFormat (ignoreRules options) path ([], [])
                = ([], [])).
    { unfold validateBooleanField. destruct (get data "user-invokable") as [[]|];
        try reflexivity; discriminate. }
    rewrite U.
    assert (V : validateBooleanField rules (get data "disable-model-invocation")
                  DisableModelInvocationFormat (ignoreRules options) path ([], [])
                = ([], [])).
    { unfold validateBooleanField.
      destruct (get data "disable-model-invocation") as [[]|];
        try reflexivity; discriminate. }
    rewrite V.
    assert (X : validateTarget rules (get data "target") (ignoreRules options)
                  path ([], []) = ([], [])).
    { unfold validateTarget. destruct (get data "target") as [[]|];
        try reflexivity; try discriminate.
      match goal with E : absent_or _ _ = true |- _ =>
        cbn -[includes VALID_TARGETS] in E;
        cbn -[includes VALID_TARGETS]; rewrite E end. reflexivity. }
    rewrite X.
    assert (S : validateMcpServers rules (get data "mcp-servers")
                  (ignoreRules options) path ([], []) = ([], [])).
    { unfold validateMcpServers. destruct (get data "mcp-servers") as [[]|];
        try reflexivity; discriminate. }
    rewrite S.
    assert (Hh : validateHandoffs rules (get data "handoffs")
                   (ignoreRules options) path ([], []) = ([], [])).
    { unfold validateHandoffs. destruct (get data "handoffs") as [[]|];
        try reflexivity; try discriminate.
      apply validateHandoffItems_complete. assumption. }
    rewrite Hh.
    assert (I : validateInfer rules (get data "infer") (ignoreRules options)
                  path ([], []) = ([], [])).
    { unfold validateInfer. destruct (get data "infer");
        [discriminate | reflexivity]. }
    rewrite I.
    rewrite validateUnknownFields_known by assumption.
    assert (Bd : validateBody rules body (ignoreRules options) path ([], [])
                 = ([], [])).
    { unfold validateBody. rewrite trim_length_0, B.
      destruct body; [discriminate|]. cbn [orb].
      destruct (Nat.ltb_spec BODY_MAX_LINES (List.length (split_lf (n :: body))));
        [lia | reflexivity]. }
    rewrite Bd.
    destruct (validateReferences options); [|reflexivity].
    apply validateFileReferences_resolved. apply R. reflexivity. }
  rewrite C. cbn. auto.
Qed.



(* ------------------------------------------------------------------ *)
(** * The inputs of the action *)
(* ------------------------------------------------------------------ *)

Lemma trimStart_idem (s : jsstring) : trimStart (trimStart s) = trimStart s.
Proof using Type.
  induction s as [|c s IH]; [reflexivity|].
  cbn [trimStart]. destruct (is_space c) eqn:E; [exact IH|].
  cbn [trimStart]. rewrite E. reflexivity.
Qed.

Lemma trimStart_snoc (a : jsstring) (x : N) :
  is_space x = false -> trimStart (a ++ [x]) = trimStart a ++ [x].
Proof using Type.
  intros H. induction a as [|c a IH]; cbn [app trimStart].
  - rewrite H. reflexivity.
  - destruct (is_space c); [exact IH | reflexivity].
Qed.

Lemma trimEnd_idem (s : jsstring) : trimEnd (trimEnd s) = trimEnd s.
Proof using Type.
  unfold trimEnd. rewrite rev_involutive, trimStart_idem. reflexivity.
Qed.

Lemma trimStart_trimEnd (s : jsstring) :
  trimStart (trimEnd (trimStart s)) = trimEnd (trimStart s).
Proof using Type.
  destruct (trimStart s) as [|x t] eqn:T; [reflexivity|].
  apply trimStart_head in T. unfold trimEnd. cbn [rev].
  rewrite trimStart_snoc by exact T. rewrite rev_app_distr. cbn [rev app trimStart].
  rewrite T. reflexivity.
Qed.

Lemma trim_idem (s : jsstring) : trim (trim s) = trim s.
Proof using Type.
  unfold trim. rewrite trimStart_trimEnd, trimEnd_idem. reflexivity.
Qed.

(** X16.  Every entry of the ignore list read from the inputs is not
    empty and has no white space at either end. *)
Theorem ignoreRules_trimmed (r : jsstring) :
  In r (input_ignoreRules (getInputs getInput)) ->
  r <> [] /\ trim r = r.
Proof using Type.
  cbn [getInputs input_ignoreRules]. intros H.
  apply filter_In in H. destruct H as (H & L).
  apply in_map_iff in H. destruct H as (x & <- & _).
  split; [|apply trim_idem].
  destruct (trim x); [discriminate L | discriminate].
Qed.

Lemma split_on_cons (sep : N) (s : jsstring) :
  exists piece rest, split_on sep s = piece :: rest.
Proof using Type.
  induction s as [|c s (p & r & E)]; cbn [split_on]; [eauto|].
  destruct (N.eqb c sep); [eauto|]. rewrite E. eauto.
Qed.

Lemma split_on_none (sep : N) (a : jsstring) :
  ~ In sep a -> split_on sep a = [a].
Proof using Type.
  induction a as [|c a IH]; intros H; [reflexivity|].
  cbn [split_on]. destruct (N.eqb c sep) eqn:E.
  - apply N.eqb_eq in E. exfalso. apply H. left. exact E.
  - rewrite IH; [reflexivity|]. intros X. apply H. right. exact X.
Qed.

Lemma split_on_app (sep : N) (a b : jsstring) :
  ~ In sep a -> split_on sep (a ++ sep :: b) = a :: split_on sep b.
Proof using Type.
  induction a as [|c a IH]; intros H; cbn [app split_on].
  - rewrite N.eqb_refl. reflexivity.
  - destruct (N.eqb c sep) eqn:E.
    + apply N.eqb_eq in E. exfalso. apply H. left. exact E.
    + rewrite IH; [reflexivity|]. intros X. apply H. right. exact X.
Qed.

Lemma trim_after_space (s : jsstring) :
  map trim (split_on 44 (32%N :: s)) = map trim (split_on 44 s).
Proof using Type.
  cbn [split_on]. change (N.eqb 32 44) with false. cbv iota.
  destruct (split_on_cons 44 s) as (p & r & E). rewrite E. reflexivity.
Qed.

Lemma listed_rules_read (x : jsstring) (rest : list jsstring) :
  (forall n, In n (x :: rest) -> n <> [] /\ trim n = n /\ ~ In 44%N n) ->
  map trim (split_on 44 (join (lit ", ") (x :: rest))) = x :: rest.
Proof using Type.
  revert x. induction rest as [|y rest IH]; intros x H.
  - cbn [join]. destruct (H x (or_introl eq_refl)) as (_ & T & C).
    rewrite split_on_none by exact C. cbn [map]. rewrite T. reflexivity.
  - change (join (lit ", ") (x :: y :: rest))
      with (x ++ 44%N :: 32%N :: join (lit ", ") (y :: rest)).
    destruct (H x (or_introl eq_refl)) as (_ & T & C).
    rewrite split_on_app by exact C. cbn [map]. rewrite T, trim_after_space.
    rewrite IH; [reflexivity|]. intros n Hn. apply H. right. exact Hn.
Qed.

(** X17.  A list of rule names written with ", " between them is read
    back as it was written, provided no name is empty, has white space
    at either end or holds a comma. *)
Theorem ignoreRules_round_trip (names : list jsstring) :
  getInput (lit "ignore-rules") = join (lit ", ") names ->
  (forall n, In n names -> n <> [] /\ trim n = n /\ ~ In 44%N n) ->
  input_ignoreRules (getInputs getInput) = names.
Proof using Type.
  intros G H. cbn [getInputs input_ignoreRules]. rewrite G.
  destruct names as [|x rest]; [reflexivity|].
  rewrite listed_rules_read by exact H.
  apply forallb_filter_id. apply forallb_forall. intros n Hn.
  destruct (H n Hn) as (E & _). destruct n; [congruence | reflexivity].
Qed.

(* ------------------------------------------------------------------ *)
(** * Path discovery *)
(* ------------------------------------------------------------------ *)

Lemma chatmode_is_not_agent (p : jsstring) :
  endsWith (lit ".chatmode.md") p = true -> endsWith (lit ".agent.md") p = false.
Proof using Type.
  unfold endsWith. generalize (rev p). intros q.
  change (rev (lit ".chatmode.md"))
    with (100%N :: 109%N :: 46%N :: 101%N :: rev (lit ".chatmod")).
  change (rev (lit ".agent.md"))
    with (100%N :: 109%N :: 46%N :: 116%N :: rev (lit ".agen")).
  destruct q as [|a [|b [|c [|d q]]]]; cbn [startsWith];
    try discriminate; intros H;
    repeat (apply andb_true_iff in H; destruct H as (? & H));
    try discriminate H.
  match goal with E : N.eqb 101 ?z = true |- _ => apply N.eqb_eq in E; subst z end.
  change (N.eqb 116 101) with false. rewrite !andb_false_r. reflexivity.
Qed.

(** X18.  A single file given as the path is accepted only with the
    .agent.md extension: a .chatmode.md file, which path discovery
    gathers from a directory's .github/chatmodes, is refused under
    file-extension when it is the path itself. *)
Theorem single_chatmode_file_refused (w : World) (t : Tree)
    (inputPath : jsstring) (size : N) :
  existsSync w (path_resolve1 inputPath) = true ->
  statSync w (path_resolve1 inputPath) = inr size ->
  isFile t (path_resolve1 inputPath) = true ->
  endsWith (lit ".chatmode.md") (path_resolve1 inputPath) = true ->
  resolveAgentPaths path_resolve1 path_join w t inputPath
  = inr (PathResolutionFailure
           {| error_message :=
                lit "File must have .agent.md extension: " ++ inputPath;
              error_ruleId := Some FileExtension |}).
Proof using Type.
  intros E S F C. unfold resolveAgentPaths.
  rewrite E, S, F. rewrite chatmode_is_not_agent by exact C. reflexivity.
Qed.

Lemma dedupe_spec (files : list jsstring) :
  forall seen,
    NoDup (dedupe seen files)
    /\ forall x, In x (dedupe seen files) <-> In x files /\ ~ In x seen.
Proof using Type.
  clear rules load path_resolve path_dirname path_basename path_resolve1
        path_join getInput.
  induction files as [|y files IH]; intros seen; cbn [dedupe].
  - split; [constructor|]. intros x. cbn. tauto.
  - destruct (includes y seen) eqn:I.
    + apply includes_In in I. destruct (IH seen) as (N & M).
      split; [exact N|]. intros x. rewrite M. cbn [In].
      split; [tauto|]. intros ([<- | H] & Hn); [contradiction | auto].
    + assert (Hy : ~ In y seen)
        by (intros X; apply includes_In in X; congruence).
      destruct (IH (y :: seen)) as (N & M).
      split.
      * constructor; [|exact N]. rewrite M. cbn [In]. tauto.
      * intros x. cbn [In]. rewrite M. cbn [In].
        destruct (list_eq_dec N.eq_dec y x) as [<- | D]; tauto.
Qed.

(** X19.  When path discovery succeeds it returns at least one path and
    no path twice. *)
Theorem resolveAgentPaths_distinct (w : World) (t : Tree)
    (inputPath : jsstring) (files : list jsstring) :
  resolveAgentPaths path_resolve1 path_join w t inputPath
  = inr (PathResolutionSuccess files) ->
  files <> [] /\ NoDup files.
Proof using Type.
  unfold resolveAgentPaths.
  destruct (negb (existsSync w (path_resolve1 inputPath))); [discriminate|].
  destruct (statSync w (path_resolve1 inputPath)); [discriminate|].
  destruct (isFile t (path_resolve1 inputPath)).
  - destruct (negb (endsWith _ _)); [discriminate|].
    intros H; inversion H; subst. split; [discriminate|].
    constructor; [intros [] | constructor].
  - destruct (isDirectory t (path_resolve1 inputPath)); [|discriminate].
    destruct (listed_if_exists _ _ _ _ _) as [|agentFiles]; [discriminate|].
    destruct (listed _ _ _ _) as [|rootFiles]; [discriminate|].
    destruct (listed_if_exists _ _ _ _ _) as [|chatmodeFiles]; [discriminate|].
    destruct (agentFiles ++ rootFiles ++ chatmodeFiles) as [|x l] eqn:E;
      [discriminate|].
    cbn [List.length Nat.eqb]. intros H.
    assert (F : files = dedupe [] (x :: l)) by (inversion H; reflexivity).
    rewrite F. split; [|apply dedupe_spec].
    cbn [dedupe includes existsb]. discriminate.
Qed.

(* ------------------------------------------------------------------ *)
(** * The run *)
(* ------------------------------------------------------------------ *)

Local Abbreviation inputs := (getInputs getInput).

Local Abbreviation options_for p :=
  {| ignoreRules := input_ignoreRules inputs;
     validateReferences := input_validateReferences inputs;
     filePath := p |}.

(** What validating each file on its own gives, in the order of the
    paths. *)
Local Abbreviation alone w files :=
  (map (fun p => fst (validate p (options_for p) w)) files).

Local Abbreviation the_run :=
  (run rules load path_resolve path_dirname path_basename
       path_resolve1 path_join getInput).

Local Abbreviation resolve :=
  (resolveAgentPaths path_resolve1 path_join).

Lemma resolveAgentPaths_same_files w w' t p :
  same_files w w' -> resolve w t p = resolve w' t p.
Proof using Type.
  intros (A & _ & C). unfold resolveAgentPaths, listed_if_exists.
  rewrite !C, A. reflexivity.
Qed.

(** In a batch every file gets the result it would get alone: nothing
    passes from one file to the next. *)
Lemma validateFiles_alone files :
  forall w0 w, same_files w0 w ->
    fst (validateFiles rules load path_resolve path_dirname path_basename
                       files inputs w) = alone w0 files
    /\ same_files w0
         (snd (validateFiles rules load path_resolve path_dirname path_basename
                             files inputs w)).
Proof using Type.
  induction files as [|p rest IH]; intros w0 w S; cbn [validateFiles map].
  - auto.
  - set (w1 := info (lit "Validating: " ++ path_basename p) w).
    assert (S1 : same_files w0 w1)
      by (eapply same_files_trans; [exact S | apply same_files_info]).
    pose proof (validateAgentFile_same_files rules load path_resolve
                  path_dirname path_basename p (options_for p) S1) as R.
    pose proof (validateAgentFile_keeps_files rules load path_resolve
                  path_dirname path_basename p (options_for p) w1) as K.
    destruct (validate p (options_for p) w1) as [result w2].
    cbn [fst snd] in R, K.
    assert (S2 : same_files w0 w2) by (eapply same_files_trans; eassumption).
    destruct (IH w0 w2 S2) as (E & S3).
    destruct (validateFiles rules load path_resolve path_dirname path_basename
                            rest inputs w2) as [results w3].
    cbn [fst snd] in *. rewrite R, E. auto.
Qed.

Lemma annotations_In rs e :
  In e (flat_map (annotations path_basename) rs) ->
  (exists m ti, e = EvError m ti) \/ (exists m ti, e = EvWarning m ti).
Proof using Type.
  intros H. apply in_flat_map in H. destruct H as (r & _ & H).
  unfold annotations in H. apply in_app_or in H.
  destruct H as [H | H]; apply in_map_iff in H; destruct H as (i & <- & _); eauto.
Qed.



(** The events of [run] once the paths are resolved, in terms of what
    each file gives alone. *)
Lemma report_events files w0 w :
  same_files w0 w ->
  let results := alone w0 files in
  let allErrors := flat_map errors results in
  let allWarnings := flat_map warnings results in
  let isValid :=
    negb (Nat.ltb 0 (List.length allErrors))
    && (negb (failOnWarning inputs)
        || negb (Nat.ltb 0 (List.length allWarnings))) in
  exists msg,
    fst (report rules load path_resolve path_dirname path_basename
                inputs files w)
    = flat_map (annotations path_basename) results
      ++ [SetOutput (lit "valid")
                    (OutText (if isValid then lit "true" else lit "false"));
          SetOutput (lit "errors") (OutIssues allErrors);
          SetOutput (lit "warnings") (OutIssues allWarnings);
          SetOutput (lit "files-validated")
                    (OutText (of_nat (List.length files)))]
      ++ (if isValid then [] else [SetFailed msg]).
Proof using Type.
  intros S. cbv zeta. unfold report.
  set (w1 := info _ w).
  assert (S1 : same_files w0 w1)
    by (eapply same_files_trans; [exact S | apply same_files_info]).
  destruct (validateFiles_alone files S1) as (E & _).
  destruct (validateFiles rules load path_resolve path_dirname path_basename
                          files inputs w1) as [results w2].
  cbn [fst] in E. subst results.
  rewrite (length_map _ files).
  destruct (Nat.ltb 0 (List.length (flat_map errors (alone w0 files))));
    destruct (failOnWarning inputs);
    destruct (Nat.ltb 0 (List.length (flat_map warnings (alone w0 files))));
    cbn [negb andb orb fst];
    first [ exists []; reflexivity
          | eexists; rewrite <- app_assoc; reflexivity ].
Qed.

Lemma run_cases w t :
  match resolve w t (input_path inputs) with
  | inl msg =>
      fst (the_run w t) = [SetFailed (lit "Unexpected error: " ++ msg)]
  | inr (PathResolutionFailure error) =>
      fst (the_run w t)
      = [SetFailed (error_message error);
         SetOutput (lit "valid") (OutText (lit "false"));
         SetOutput (lit "errors") (OutMessages [error_message error]);
         SetOutput (lit "warnings") (OutIssues []);
         SetOutput (lit "files-validated") (OutText (lit "0"))]
  | inr (PathResolutionSuccess files) =>
      exists w', same_files w w'
                 /\ fst (the_run w t)
                    = fst (report rules load path_resolve path_dirname
                                  path_basename inputs files w')
  end.
Proof using Type.
  unfold run.
  set (wa := info (lit "Validating agent files in: " ++ input_path inputs) w).
  set (wb := if Nat.ltb 0 (List.length (input_ignoreRules inputs))
             then info _ wa else wa).
  set (wc := if input_validateReferences inputs then info _ wb else wb).
  assert (S : same_files w wc).
  { eapply same_files_trans with (w2 := wa); [apply same_files_info|].
    eapply same_files_trans with (w2 := wb).
    - subst wb. destruct (Nat.ltb _ _); [apply same_files_info | repeat split].
    - subst wc. destruct (input_validateReferences inputs);
        [apply same_files_info | repeat split]. }
  rewrite (resolveAgentPaths_same_files t (input_path inputs) S).
  destruct (resolve wc t (input_path inputs)) as [msg | [files | error]];
    try reflexivity.
  exists wc. auto.
Qed.

Ltac not_listed H :=
  cbn [In] in H;
  repeat (destruct H as [H | H]; [try discriminate H; try (vm_compute in H; discriminate H)|]);
  try contradiction.

(** X20.  Whatever happens, [run] either sets the output valid to "true"
    or calls [setFailed], never both and never neither. *)
Theorem run_fails_unless_valid w t :
  In (SetOutput (lit "valid") (OutText (lit "true"))) (fst (the_run w t))
  <-> forall m, ~ In (SetFailed m) (fst (the_run w t)).
Proof using Type.
  pose proof (run_cases w t) as C.
  destruct (resolve w t (input_path inputs)) as [msg | [files | error]].
  - rewrite C. split.
    + intros H. not_listed H.
    + intros H. exfalso. apply (H (lit "Unexpected error: " ++ msg)). left. reflexivity.
  - destruct C as (w' & S & ->).
    destruct (report_events files S) as (msg & ->).
    set (A := flat_map (annotations path_basename) (alone w files)).
    assert (NA : forall e, In e A ->
                   (forall n v, e <> SetOutput n v) /\ forall m, e <> SetFailed m).
    { intros e He. apply annotations_In in He.
      destruct He as [(m & ti & ->) | (m & ti & ->)]; split; intros; discriminate. }
    match goal with
    | |- context [if ?b then lit "true" else lit "false"] => destruct b
    end.
    + split.
      * intros _ m H. apply in_app_or in H. destruct H as [H | H].
        -- apply NA in H. destruct H as (_ & H). exact (H m eq_refl).
        -- not_listed H.
      * intros _. apply in_or_app. right. left. reflexivity.
    + split.
      * intros H. exfalso. apply in_app_or in H. destruct H as [H | H].
        -- apply NA in H. destruct H as (H & _). exact (H _ _ eq_refl).
        -- not_listed H.
      * intros H. exfalso. apply (H msg).
        apply in_or_app. right. cbn. auto 6.
  - rewrite C. split.
    + intros H. not_listed H.
    + intros H. exfalso. apply (H (error_message error)). left. reflexivity.
Qed.



End Further.

(* ------------------------------------------------------------------ *)
(** * The further properties at work on the two repositories *)
(* ------------------------------------------------------------------ *)

Ltac absent_unit :=
  let H := fresh in
  intros H; vm_compute in H;
  repeat (destruct H as [H | H]; [discriminate H|]); exact H.

Lemma extractFrontmatter_shortest_witness :
  extractFrontmatter Demo.reviewer_text
  = (Some Demo.reviewer_header,
     lit "Review the diff as the [guide](guide.md) says." ++ Demo.LF)
  /\ forall a b, Demo.reviewer_header <> a ++ [10%N] ++ lit "---" ++ b.
Proof.
  split; [reflexivity|].
  exact (@extractFrontmatter_shortest Demo.reviewer_text Demo.reviewer_header
           (lit "Review the diff as the [guide](guide.md) says." ++ Demo.LF)
           eq_refl).
Defined.

Lemma links_sound_witness :
  In (lit "guide.md")
     (links 0 (lit "Review the diff as the [guide](guide.md) says." ++ Demo.LF))
  /\ lit "guide.md" <> []
  /\ ~ In 41%N (lit "guide.md")
  /\ exists pre post,
       lit "Review the diff as the [guide](guide.md) says." ++ Demo.LF
       = pre ++ lit "](" ++ lit "guide.md" ++ lit ")" ++ post.
Proof.
  assert (H : In (lit "guide.md")
                (links 0 (lit "Review the diff as the [guide](guide.md) says."
                          ++ Demo.LF)))
    by (left; reflexivity).
  split; [exact H|].
  exact (@links_sound _ _ H).
Defined.

Lemma links_found_witness :
  ~ In 91%N (lit "Review the diff as the ")
  /\ ~ In 93%N (lit "guide")
  /\ lit "guide.md" <> []
  /\ ~ In 41%N (lit "guide.md")
  /\ links 0 (lit "Review the diff as the " ++ lit "[" ++ lit "guide" ++ lit "]("
              ++ lit "guide.md" ++ lit ")" ++ lit " says.")
     = lit "guide.md" :: links 0 (lit " says.").
Proof.
  assert (A : ~ In 91%N (lit "Review the diff as the ")) by absent_unit.
  assert (B : ~ In 93%N (lit "guide")) by absent_unit.
  assert (C : lit "guide.md" <> []) by discriminate.
  assert (D : ~ In 41%N (lit "guide.md")) by absent_unit.
  repeat (split; [assumption|]).
  exact (@links_found _ _ _ (lit " says.") A B C D).
Defined.

Lemma createIssue_renders_detail_witness :
  rule_message (rules_json DescriptionQuality)
  = lit "description-quality: " ++ lit "{length}" ++ []
  /\ In (lit "{length}") detail_tokens
  /\ message (createIssue rules_json DescriptionQuality (Some (lit "10"))
                          (Some (lit "a.agent.md")) None)
     = lit "description-quality: " ++ lit "10" ++ [].
Proof.
  assert (T : In (lit "{length}") detail_tokens) by (right; left; reflexivity).
  split; [reflexivity|]. split; [exact T|].
  refine (@createIssue_renders_detail rules_json DescriptionQuality
            (lit "{length}") (lit "description-quality: ") [] (lit "10")
            (Some (lit "a.agent.md")) None eq_refl T _ _ _ _ _);
    first [discriminate | absent_unit | (intros H; exact H)].
Defined.

Lemma createIssue_plain_template_witness :
  ~ In 123%N (rule_message (Demo.rules NameFormat))
  /\ message (createIssue Demo.rules NameFormat (Some (lit "{detail}"))
                          (Some (lit "a.agent.md")) None)
     = lit "The name field must be a string.".
Proof.
  assert (A : ~ In 123%N (rule_message (Demo.rules NameFormat)))
    by absent_unit.
  split; [exact A|].
  exact (@createIssue_plain_template Demo.rules NameFormat
           (Some (lit "{detail}")) (Some (lit "a.agent.md")) None A).
Defined.

Lemma parsed_result_routed_witness :
  parseAgentFile Sample.load Sample.world (lit "infer.agent.md")
  = ParseSuccess (JObj [(lit "infer", JBool false)]) (lit "Body." ++ Sample.LF)
  /\ Forall (fun i => severity i = SevError
                      /\ stamped rules_json (lit "infer.agent.md") i
                      /\ In (ruleId i) engine_rules)
            (errors (fst (Sample.validate (lit "infer.agent.md")
                            (Sample.options [] false "infer.agent.md")
                            Sample.world)))
  /\ Forall (fun i => severity i = SevWarning
                      /\ stamped rules_json (lit "infer.agent.md") i
                      /\ In (ruleId i) engine_rules)
            (warnings (fst (Sample.validate (lit "infer.agent.md")
                              (Sample.options [] false "infer.agent.md")
                              Sample.world))).
Proof.
  split; [reflexivity|].
  exact (@parsed_result_routed rules_json Sample.load Sample.path_resolve
           Sample.path_dirname Sample.path_basename (lit "infer.agent.md")
           (Sample.options [] false "infer.agent.md") Sample.world
           (JObj [(lit "infer", JBool false)]) (lit "Body." ++ Sample.LF)
           eq_refl).
Defined.

Lemma result_rule_partition_witness :
  ruleId (createIssue rules_json FrontmatterRequired
            (Some (lit "Agent file must contain YAML frontmatter (content between --- markers)"))
            (Some (lit "plain.agent.md")) None)
  = FrontmatterRequired
  /\ errors (fst (Sample.validate (lit "plain.agent.md")
                    (Sample.options [] false "plain.agent.md") Sample.world))
     = [createIssue rules_json FrontmatterRequired
          (Some (lit "Agent file must contain YAML frontmatter (content between --- markers)"))
          (Some (lit "plain.agent.md")) None]
  /\ warnings (fst (Sample.validate (lit "plain.agent.md")
                      (Sample.options [] false "plain.agent.md") Sample.world))
     = [].
Proof.
  split; [reflexivity|].
  destruct (@result_rule_partition rules_json Sample.load Sample.path_resolve
              Sample.path_dirname Sample.path_basename (lit "plain.agent.md")
              (Sample.options [] false "plain.agent.md") Sample.world
              (createIssue rules_json FrontmatterRequired
                 (Some (lit "Agent file must contain YAML frontmatter (content between --- markers)"))
                 (Some (lit "plain.agent.md")) None)
              (or_introl eq_refl))
    as (_ & [I | (_ & E & W)]).
  - exfalso. vm_compute in I.
    repeat (destruct I as [I | I]; [discriminate I|]). exact I.
  - split; [exact E | exact W].
Defined.

Lemma well_formed_file_is_clean_witness :
  well_formed
    (JObj [(lit "description",
            JStr (lit "Reviews pull requests for style, correctness and missing tests."));
           (lit "name", JStr (lit "Reviewer"))]) = true
  /\ errors (fst (Demo.validate (lit "/repo/.github/agents/reviewer.agent.md")
                    {| ignoreRules := []; validateReferences := true;
                       filePath := lit "/repo/.github/agents/reviewer.agent.md" |}
                    Demo.world)) = []
  /\ warnings (fst (Demo.validate (lit "/repo/.github/agents/reviewer.agent.md")
                      {| ignoreRules := []; validateReferences := true;
                         filePath := lit "/repo/.github/agents/reviewer.agent.md" |}
                      Demo.world)) = []
  /\ valid (fst (Demo.validate (lit "/repo/.github/agents/reviewer.agent.md")
                   {| ignoreRules := []; validateReferences := true;
                      filePath := lit "/repo/.github/agents/reviewer.agent.md" |}
                   Demo.world)) = true.
Proof.
  split; [reflexivity|].
  refine (@well_formed_file_is_clean Demo.rules Demo.load Demo.path_resolve
            Demo.path_dirname Demo.path_basename
            (lit "/repo/.github/agents/reviewer.agent.md")
            {| ignoreRules := []; validateReferences := true;
               filePath := lit "/repo/.github/agents/reviewer.agent.md" |}
            Demo.world
            (JObj [(lit "description",
                    JStr (lit "Reviews pull requests for style, correctness and missing tests."));
                   (lit "name", JStr (lit "Reviewer"))])
            (lit "Review the diff as the [guide](guide.md) says." ++ Demo.LF)
            eq_refl eq_refl eq_refl _ _).
  - apply Nat.leb_le. vm_compute. reflexivity.
  - intros _. vm_compute. reflexivity.
Defined.


Lemma ignoreRules_trimmed_witness :
  In (ruleName InferDeprecated) (input_ignoreRules (getInputs Demo.getInput))
  /\ ruleName InferDeprecated <> []
  /\ trim (ruleName InferDeprecated) = ruleName InferDeprecated.
Proof.
  assert (H : In (ruleName InferDeprecated)
                (input_ignoreRules (getInputs Demo.getInput)))
    by (right; left; reflexivity).
  split; [exact H|].
  exact (@ignoreRules_trimmed Demo.getInput _ H).
Defined.

Lemma ignoreRules_round_trip_witness :
  Demo.getInput (lit "ignore-rules")
  = join (lit ", ") [ruleName DescriptionFormat; ruleName InferDeprecated]
  /\ input_ignoreRules (getInputs Demo.getInput)
     = [ruleName DescriptionFormat; ruleName InferDeprecated].
Proof.
  split; [reflexivity|].
  refine (@ignoreRules_round_trip Demo.getInput
            [ruleName DescriptionFormat; ruleName InferDeprecated] eq_refl _).
  intros n [<- | [<- | []]];
    (split; [discriminate|]); (split; [reflexivity | absent_unit]).
Defined.

Lemma single_chatmode_file_refused_witness :
  existsSync Demo.world (lit "/repo/.github/chatmodes/old.chatmode.md") = true
  /\ isFile Demo.tree (lit "/repo/.github/chatmodes/old.chatmode.md") = true
  /\ resolveAgentPaths Demo.path_resolve1 Demo.path_join Demo.world Demo.tree
       (lit "/repo/.github/chatmodes/old.chatmode.md")
     = inr (PathResolutionFailure
              {| error_message :=
                   lit "File must have .agent.md extension: "
                   ++ lit "/repo/.github/chatmodes/old.chatmode.md";
                 error_ruleId := Some FileExtension |}).
Proof.
  split; [reflexivity|]. split; [reflexivity|].
  exact (@single_chatmode_file_refused Demo.path_resolve1 Demo.path_join
           Demo.world Demo.tree (lit "/repo/.github/chatmodes/old.chatmode.md")
           27%N eq_refl eq_refl eq_refl eq_refl).
Defined.

Lemma resolveAgentPaths_distinct_witness :
  resolveAgentPaths Demo.path_resolve1 Demo.path_join Demo.world Demo.tree
                    (lit "/repo")
  = inr (PathResolutionSuccess
           [lit "/repo/.github/agents/reviewer.agent.md";
            lit "/repo/.github/chatmodes/old.chatmode.md"])
  /\ NoDup [lit "/repo/.github/agents/reviewer.agent.md";
            lit "/repo/.github/chatmodes/old.chatmode.md"].
Proof.
  split; [reflexivity|].
  exact (proj2 (@resolveAgentPaths_distinct Demo.path_resolve1 Demo.path_join
                  Demo.world Demo.tree (lit "/repo") _ eq_refl)).
Defined.



(* ------------------------------------------------------------------ *)
(** * Assembling a file, and counting lines *)
(* ------------------------------------------------------------------ *)

Lemma no_delimiter_tail (c : N) (h : jsstring) :
  (forall a b, c :: h <> a ++ [10%N] ++ lit "---" ++ b) ->
  forall a b, h <> a ++ [10%N] ++ lit "---" ++ b.
Proof.
  intros H a b E. apply (H (c :: a) b). rewrite E. reflexivity.
Qed.

Lemma no_return_tail (c : N) (h : jsstring) :
  (forall a, c :: h <> a ++ [13%N]) -> forall a, h <> a ++ [13%N].
Proof.
  intros H a E. apply (H (c :: a)). rewrite E. reflexivity.
Qed.

Lemma closing_head_fails (c : N) (h nl rest : jsstring) :
  line_break nl ->
  (forall a b, c :: h <> a ++ [10%N] ++ lit "---" ++ b) ->
  (forall a, c :: h <> a ++ [13%N]) ->
  match eol ((c :: h) ++ nl ++ lit "---" ++ rest) with
  | Some r => strip_prefix (lit "---") r
  | None => None
  end = None.
Proof.
  intros Hnl H R.
  destruct (eol ((c :: h) ++ nl ++ lit "---" ++ rest)) as [r|] eqn:E;
    [|reflexivity].
  destruct (strip_prefix (lit "---") r) as [r'|] eqn:P; [|reflexivity].
  exfalso. apply strip_prefix_Some in P. subst r.
  apply eol_Some in E. destruct E as (nl' & Hnl' & E).
  change (lit "---") with [45%N; 45%N; 45%N] in *.
  destruct Hnl' as [-> | ->].
  - destruct h as [|x1 [|x2 [|x3 h]]];
      destruct Hnl as [-> | ->]; cbn in E; try discriminate E;
      inversion E; subst; eapply (H [] _); reflexivity.
  - destruct h as [|x1 [|x2 [|x3 [|x4 h]]]];
      destruct Hnl as [-> | ->]; cbn in E; try discriminate E;
      inversion E; subst;
      first [ eapply (H [13%N] _); reflexivity
            | eapply (R []); reflexivity ].
Qed.

Lemma closing_exact (h nl rest : jsstring) :
  line_break nl ->
  (forall a b, h <> a ++ [10%N] ++ lit "---" ++ b) ->
  (forall a, h <> a ++ [13%N]) ->
  closing (h ++ nl ++ lit "---" ++ rest) = Some (h, rest).
Proof.
  intros Hnl. induction h as [|c h IH]; intros H R.
  - assert (E : eol (nl ++ lit "---" ++ rest) = Some (lit "---" ++ rest))
      by (apply eol_Some; exists nl; auto).
    assert (P : strip_prefix (lit "---") (lit "---" ++ rest) = Some rest)
      by (apply strip_prefix_Some; reflexivity).
    destruct Hnl as [-> | ->]; cbn [app closing] in *; rewrite E, P; reflexivity.
  - pose proof (@closing_head_fails c h nl rest Hnl H R) as F.
    rewrite <- app_comm_cons in F |- *. cbn [closing]. rewrite F.
    rewrite (IH (no_delimiter_tail H) (no_return_tail R)). reflexivity.
Qed.

(** X23.  A file put together from a header and a body is split back
    into them: three dashes, a line break, a header in which no line
    feed is followed by three dashes and which does not end in a
    carriage return, a line break, three dashes, a line break and the
    body give back that header and that body, with either line-ending
    convention at each of the three places. *)
Theorem extractFrontmatter_assembled (nl1 nl2 nl3 header body : jsstring) :
  line_break nl1 -> line_break nl2 -> line_break nl3 ->
  (forall a b, header <> a ++ [10%N] ++ lit "---" ++ b) ->
  (forall a, header <> a ++ [13%N]) ->
  extractFrontmatter
    (lit "---" ++ nl1 ++ header ++ nl2 ++ lit "---" ++ nl3 ++ body)
  = (Some header, body).
Proof.
  intros H1 H2 H3 H R. unfold extractFrontmatter.
  assert (P : strip_prefix (lit "---")
                (lit "---" ++ nl1 ++ header ++ nl2 ++ lit "---" ++ nl3 ++ body)
              = Some (nl1 ++ header ++ nl2 ++ lit "---" ++ nl3 ++ body))
    by (apply strip_prefix_Some; reflexivity).
  rewrite P.
  assert (E : eol (nl1 ++ header ++ nl2 ++ lit "---" ++ nl3 ++ body)
              = Some (header ++ nl2 ++ lit "---" ++ nl3 ++ body))
    by (apply eol_Some; exists nl1; auto).
  rewrite E. rewrite (closing_exact (nl3 ++ body) H2 H R).
  destruct H3 as [-> | ->]; reflexivity.
Qed.

Lemma split_lf_length (s : jsstring) :
  List.length (split_lf s) = S (count_occ N.eq_dec s 10%N).
Proof.
  induction s as [|c s IH]; [reflexivity|].
  cbn [split_lf count_occ].
  destruct (N.eqb_spec c 10) as [-> | D].
  - destruct (N.eq_dec 10 10) as [_ | X]; [|congruence].
    cbn [List.length]. rewrite IH. reflexivity.
  - destruct (N.eq_dec c 10) as [X | _]; [congruence|].
    destruct (split_lf s) as [|piece rest]; [discriminate IH | exact IH].
Qed.

(** X24.  The body validator counts one line more than the body has line
    feeds: a body that is not blank is reported as too long exactly when
    it holds 1000 line feeds or more, so a body of 1000 lines that ends
    with a line feed is too long; the issue carries that count. *)
Theorem validateBody_line_feeds (rules : RuleId -> RuleDefinition)
    (body : jsstring) ignore f st :
  blank body = false ->
  yields ignore
    (if Nat.leb 1000 (count_occ N.eq_dec body 10%N)
     then [createIssue rules BodyTooLong
             (Some (of_nat (S (count_occ N.eq_dec body 10%N)))) (Some f) None]
     else [])
    st (validateBody rules body ignore f st).
Proof.
  intros B. unfold validateBody. rewrite trim_length_0, B.
  destruct body as [|c body]; [discriminate B|]. cbn [orb].
  rewrite split_lf_length. change BODY_MAX_LINES with 1000.
  change (Nat.ltb 1000 (S (count_occ N.eq_dec (c :: body) 10%N)))
    with (Nat.leb 1000 (count_occ N.eq_dec (c :: body) 10%N)).
  destruct (Nat.leb 1000 (count_occ N.eq_dec (c :: body) 10%N));
    [apply yields_addIssue | apply yields_nil].
Qed.

Lemma extractFrontmatter_assembled_witness :
  line_break [13%N; 10%N] /\ line_break [10%N]
  /\ (forall a b, lit "name: Planner" <> a ++ [10%N] ++ lit "---" ++ b)
  /\ (forall a, lit "name: Planner" <> a ++ [13%N])
  /\ extractFrontmatter
       (lit "---" ++ [13%N; 10%N] ++ lit "name: Planner" ++ [13%N; 10%N]
        ++ lit "---" ++ [10%N] ++ lit "Plan.")
     = (Some (lit "name: Planner"), lit "Plan.").
Proof.
  assert (A : line_break [13%N; 10%N]) by (right; reflexivity).
  assert (B : line_break [10%N]) by (left; reflexivity).
  assert (C : forall a b, lit "name: Planner" <> a ++ [10%N] ++ lit "---" ++ b).
  { intros a b E.
    assert (I : In 10%N (lit "name: Planner"))
      by (rewrite E; apply in_or_app; right; left; reflexivity).
    vm_compute in I.
    repeat (destruct I as [I | I]; [discriminate I|]). exact I. }
  assert (D : forall a, lit "name: Planner" <> a ++ [13%N]).
  { intros a E.
    assert (I : In 13%N (lit "name: Planner"))
      by (rewrite E; apply in_or_app; right; left; reflexivity).
    vm_compute in I.
    repeat (destruct I as [I | I]; [discriminate I|]). exact I. }
  split; [exact A|]. split; [exact B|]. split; [exact C|]. split; [exact D|].
  exact (@extractFrontmatter_assembled _ _ _ _ (lit "Plan.") A A B C D).
Defined.

Lemma validateBody_line_feeds_witness :
  blank (lit "x" ++ repeat 10%N 1000) = false
  /\ validateBody rules_json (lit "x" ++ repeat 10%N 1000) []
                  (lit "a.agent.md") ([], [])
     = ([], [createIssue rules_json BodyTooLong (Some (lit "1001"))
               (Some (lit "a.agent.md")) None]).
Proof.
  split; [reflexivity|].
  pose proof (@validateBody_line_feeds rules_json (lit "x" ++ repeat 10%N 1000)
                [] (lit "a.agent.md") ([], []) eq_refl) as Y.
  unfold yields in Y. rewrite Y. vm_compute. reflexivity.
Defined.
